(** * OmniLogistics (nest-pgsql): a shallow embedding of the REST services

    The repository is a NestJS facade over one PostgreSQL database.  Every
    service method builds one or two SQL statements and maps the rows back.
    This development embeds

    - the tables of [migrations/] as finite maps keyed by their primary key
      (or as a list for the key-less hypertable),
    - the statements the services issue, as functions on those tables,
    - the service and controller methods, in a state-and-exception monad
      that threads the database through the calls,

    and proves properties of the service contracts.

    Conventions.  Numbers that are [double precision] / JS [number] in the
    source (scores, distances, sensor values) are exact rationals [Q];
    instants are integers (milliseconds since the epoch).  What the
    PostgreSQL extensions compute (text-search ranking, vector distance,
    geodesic distance, time bucketing) is not part of the repository and is
    taken as a parameter through the type classes of [Module Pg]. *)

From Stdlib Require Import ZArith QArith Qround Qabs Lqa String Ascii.
From stdpp Require Import base option list gmap strings sorting pretty.

Local Open Scope Z_scope.

(* ================================================================== *)
(** * NestJS: exceptions, results, the request monad                    *)
(* ================================================================== *)

Module Nest.

(** What a handler can throw.  [NotFoundException] and
    [BadRequestException] are Nest [HttpException]s; a failed statement
    surfaces as the driver's error, which is no [HttpException]. *)
Inductive Exception : Type :=
| NotFoundException (message : string)
| BadRequestException (messages : list string)
| QueryFailedError (message : string).

Inductive Result (A : Type) : Type :=
| Ok (a : A)
| Throw (e : Exception).
Global Arguments Ok {A} a.
Global Arguments Throw {A} e.

(** Nest's built-in exceptions filter: an [HttpException] keeps its own
    status, anything else is answered with 500. *)
Definition http_status (e : Exception) : Z :=
  match e with
  | NotFoundException _ => 404
  | BadRequestException _ => 400
  | QueryFailedError _ => 500
  end.

(** State and exception monad: [async] code that awaits one statement
    after the other.  The store survives an exception. *)
Definition M (S A : Type) : Type := S -> Result A * S.

Definition ret {S A} (a : A) : M S A := fun s => (Ok a, s).
Definition throw {S A} (e : Exception) : M S A := fun s => (Throw e, s).
Definition bind {S A B} (c : M S A) (k : A -> M S B) : M S B :=
  fun s =>
    match c s with
    | (Ok a, s') => k a s'
    | (Throw e, s') => (Throw e, s')
    end.
Definition lift {S A} (r : Result A) : M S A := fun s => (r, s).

(** Pipes bound to a request body. *)
Inductive Pipe : Type := ValidationPipe.

Record NestApplication : Type := { globalPipes : list Pipe }.

(** [ValidationPipe.transform]: run the class-validator constraints of
    the DTO class and answer 400 when one of them is violated. *)
Definition transform {Dto} (validate : Dto -> list string) (p : Pipe)
    (body : Dto) : Result Dto :=
  match p with
  | ValidationPipe =>
      match validate body with
      | [] => Ok body
      | errors => Throw (BadRequestException errors)
      end
  end.

(** The body passes through every pipe bound to the route, in order. *)
Fixpoint apply_pipes {Dto} (validate : Dto -> list string)
    (pipes : list Pipe) (body : Dto) : Result Dto :=
  match pipes with
  | [] => Ok body
  | p :: rest =>
      match transform validate p body with
      | Ok body' => apply_pipes validate rest body'
      | Throw e => Throw e
      end
  end.

End Nest.

Import Nest.

Notation "x <- c ;; k" := (bind c (fun x => k))
  (at level 100, c at next level, right associativity, only parsing).

(** JSON values, as far as the services look at them. *)
Inductive Json : Type :=
| JNull
| JNumber (n : Q)
| JString (s : string)
| JObject (fields : list (string * string)).

(** JS truthiness of a string: only the empty string is falsy. *)
Definition truthy (s : string) : bool :=
  match s with EmptyString => false | _ => true end.

(** JS truthiness of an optional string ([undefined] is falsy too). *)
Definition truthy_opt (s : option string) : bool :=
  match s with Some s => truthy s | None => false end.

(* ================================================================== *)
(** * PostgreSQL: tables, statements, ordering, LIMIT                   *)
(* ================================================================== *)

Module Pg.

Inductive Statement : Type := SELECT | INSERT | UPDATE | DELETE.

Global Instance Statement_eq_dec : EqDecision Statement.
Proof. solve_decision. Defined.

(** One table with a serial primary key, the server clock, and the
    statements issued so far (latest last). *)
Record Db (Row : Type) : Type := {
  table : gmap Z Row;
  id_seq : Z;
  clock : Z;
  issued : list Statement;
}.
Global Arguments table {Row} _.
Global Arguments id_seq {Row} _.
Global Arguments clock {Row} _.
Global Arguments issued {Row} _.

(** Every statement runs in its own transaction: it is recorded, sees
    the clock as its [NOW()], and the clock moves on. *)
Definition issue {Row} (s : Statement) : M (Db Row) Z :=
  fun db =>
    (Ok (clock db),
     {| table := table db; id_seq := id_seq db;
        clock := clock db + 1; issued := issued db ++ [s] |}).

Definition get_table {Row} : M (Db Row) (gmap Z Row) :=
  fun db => (Ok (table db), db).

Definition put_table {Row} (t : gmap Z Row) : M (Db Row) unit :=
  fun db =>
    (Ok tt,
     {| table := t; id_seq := id_seq db;
        clock := clock db; issued := issued db |}).

(** [nextval] of the serial column; a value once drawn is never given
    back, whatever becomes of the statement. *)
Definition nextval {Row} : M (Db Row) Z :=
  fun db =>
    (Ok (id_seq db),
     {| table := table db; id_seq := id_seq db + 1;
        clock := clock db; issued := issued db |}).

(** A read-only statement. *)
Definition select {Row A} (q : gmap Z Row -> Result A) : M (Db Row) A :=
  _ <- issue SELECT ;;
  t <- get_table ;;
  lift (q t).

(** [SELECT .. WHERE id = $1]: at most one row. *)
Definition where_id {Row} (id : Z) (t : gmap Z Row) : list Row :=
  match t !! id with Some r => [r] | None => [] end.

(** [ORDER BY key DESC] and [ORDER BY key ASC] on rational keys.  The
    order among equal keys is whatever the sort leaves; SQL promises
    none. *)
Definition Q_desc {A} (key : A -> Q) (x y : A) : Prop :=
  Qle_bool (key y) (key x) = true.
Definition Z_desc {A} (key : A -> Z) (x y : A) : Prop := key y <= key x.
Definition Z_asc {A} (key : A -> Z) (x y : A) : Prop := key x <= key y.

Global Instance Q_desc_dec {A} (key : A -> Q) : RelDecision (Q_desc key).
Proof. intros x y. unfold Q_desc. apply _. Defined.
Global Instance Z_desc_dec {A} (key : A -> Z) : RelDecision (Z_desc key).
Proof. intros x y. unfold Z_desc. apply _. Defined.
Global Instance Z_asc_dec {A} (key : A -> Z) : RelDecision (Z_asc key).
Proof. intros x y. unfold Z_asc. apply _. Defined.

Definition order_by_desc_Q {A} (key : A -> Q) (rows : list A) : list A :=
  merge_sort (Q_desc key) rows.
Definition order_by_desc_Z {A} (key : A -> Z) (rows : list A) : list A :=
  merge_sort (Z_desc key) rows.
Definition order_by_asc_Z {A} (key : A -> Z) (rows : list A) : list A :=
  merge_sort (Z_asc key) rows.

(** [x IS NOT NULL] *)
Definition is_not_null {A} (x : option A) : bool :=
  match x with Some _ => true | None => false end.

(** [LIMIT $n]: the first [n] rows; a negative count is rejected by the
    server. *)
Definition limit_rows {A} (n : Z) (rows : list A) : Result (list A) :=
  if n <? 0 then Throw (QueryFailedError "LIMIT must not be negative")
  else Ok (take (Z.to_nat n) rows).

(** [x::int] on a [double precision]: to the nearest integer, ties to
    the even one. *)
Definition round_half_even (x : Q) : Z :=
  let f := Qfloor x in
  let r := (x - inject_Z f)%Q in
  match (r ?= 1 # 2)%Q with
  | Lt => f
  | Gt => f + 1
  | Eq => if Z.even f then f else f + 1
  end.


Definition INT4_MAX : Z := 2147483647.

(** ** What the extensions compute *)

(** Full-text search over [name || ' ' || description]. *)
Class TextSearch : Type := {
  (** [to_tsvector('english', doc) @@ plainto_tsquery('english', q)] *)
  ts_match : string -> string -> bool;
  (** [ts_rank(to_tsvector('english', doc), plainto_tsquery('english', q))] *)
  ts_rank : string -> string -> Q;
}.

(** pgvector: [a <=> b], the cosine distance. *)
Class Vector : Type := {
  cosine_distance : list Q -> list Q -> Q;
}.

(** A [GEOGRAPHY(POINT, 4326)] value: longitude and latitude. *)
Record Point : Type := MakePoint { lon : Q; lat : Q }.

(** PostGIS: [ST_Distance] on geographies, in metres. *)
Class Geography : Type := {
  ST_Distance : Point -> Point -> Q;
}.

(** [ST_DWithin(a, b, r)]: the two geographies are within [r] metres
    of one another. *)
Definition ST_DWithin `{Geography} (a b : Point) (r : Q) : bool :=
  Qle_bool (ST_Distance a b) r.

(** TimescaleDB: [time_bucket(width::interval, t)], the start of the
    bucket that holds [t]. *)
Class Timescale : Type := {
  time_bucket : string -> Z -> Z;
}.

Inductive SqlType : Type := TInteger | TText | TJsonb.
Inductive SqlValue : Type :=
| SqlInt (n : Z)
| SqlText (s : string)
| SqlJson (j : Json).

(** How the server converts a bound parameter of another type when it
    is assigned to a column ([None]: the statement is rejected). *)
Class Casts : Type := {
  assign_cast : SqlType -> SqlValue -> option SqlValue;
}.

(** [OFFSET $n]: the rows after the first [n]; a negative count is
    rejected by the server. *)
Definition offset_rows {A} (n : Z) (rows : list A) : Result (list A) :=
  if n <? 0 then Throw (QueryFailedError "OFFSET must not be negative")
  else Ok (drop (Z.to_nat n) rows).

(** [.. LIMIT $limit OFFSET $offset]: the offset is applied first. *)
Definition limit_offset {A} (limit offset : Z) (rows : list A)
    : Result (list A) :=
  match offset_rows offset rows with
  | Throw e => Throw e
  | Ok rest => limit_rows limit rest
  end.

(** [DELETE FROM .. WHERE id = $1 RETURNING ..]: the rows that went. *)
Definition delete_where_id {Row} (key : Z) : M (Db Row) (list Row) :=
  _ <- issue DELETE ;;
  tbl <- get_table ;;
  _ <- put_table (delete key tbl) ;;
  ret (where_id key tbl).

(** pg_trgm: [similarity(a, b)]. *)
Class Trigram : Type := {
  similarity : string -> string -> Q;
}.

(** [x > y] on [double precision]. *)
Definition Qgt_bool (x y : Q) : bool := negb (Qle_bool x y).

End Pg.

Import Pg.

(* ================================================================== *)
(** * Orders: [src/orders/]                                             *)
(* ================================================================== *)

(** [orders/dto/create-order.dto.ts] *)
Module CreateOrderDto.

Record t : Type := {
  customerId : string;
  driverId : string;
  inventoryId : string;
  quantity : Z;
  metadata : option Json;
}.

(** The class-validator decorators of the class, field by field:
    [@IsString() @IsNotEmpty()] on the three identifiers,
    [@IsNumber() @IsPositive()] on [quantity].  ([@IsOptional()
    @IsObject()] on [metadata] holds of every value of the type.) *)
Definition isNotEmpty (field : string) (v : string) : list string :=
  if truthy v then [] else [field ++ " should not be empty"]%string.
Definition isPositive (field : string) (v : Z) : list string :=
  if 0 <? v then [] else [field ++ " must be a positive number"]%string.

Definition validate (dto : t) : list string :=
  isNotEmpty "customerId" (customerId dto)
  ++ isNotEmpty "driverId" (driverId dto)
  ++ isNotEmpty "inventoryId" (inventoryId dto)
  ++ isPositive "quantity" (quantity dto).

End CreateOrderDto.

(** [orders/dto/update-order.dto.ts]: [PartialType(CreateOrderDto)];
    [None] is a field that is [undefined]. *)
Module UpdateOrderDto.

Record t : Type := {
  customerId : option string;
  driverId : option string;
  inventoryId : option string;
  quantity : option Z;
  metadata : option Json;
}.

Definition empty : t :=
  {| customerId := None; driverId := None; inventoryId := None;
     quantity := None; metadata := None |}.

End UpdateOrderDto.

(** [orders/rabbitmq.provider.ts] and the amqplib channel. *)
Module RabbitMQ.

Definition ORDERS_QUEUE : string := "orders_queue".

Record Message : Type := {
  orderId : Z;
  customerId : string;
  driverId : string;
  inventoryId : string;
  quantity : Z;
  metadata : Json;
  publishedAt : Z;
}.

(** [channel.sendToQueue] answers with a boolean or throws. *)
Inductive SendOutcome : Type := Returned (ok : bool) | Threw.

Record Channel : Type := {
  sendToQueue : string -> Message -> SendOutcome;
}.

(** What [channel.checkQueue] resolves to. *)
Record QueueReply : Type := {
  queue : string;
  messageCount : Z;
  consumerCount : Z;
}.

(** The broker's answer to [checkQueue] on a channel, or what it
    throws. *)
Class Broker : Type := {
  checkQueue : Channel -> string -> Result QueueReply;
}.

End RabbitMQ.


(** [orders/rabbitmq.provider.ts]: the factory of the channel. *)
Module RabbitMQProvider.

(** A promise of amqplib, once settled. *)
Inductive Settled (A : Type) : Type :=
| Resolved (a : A)
| Rejected (message : string).
Global Arguments Resolved {A} a.
Global Arguments Rejected {A} message.

Record Amqplib (Connection : Type) : Type := {
  connect : string -> Settled Connection;
  createChannel : Connection -> Settled RabbitMQ.Channel;
  assertQueue : RabbitMQ.Channel -> string -> Settled unit;
}.
Global Arguments connect {Connection} _ _.
Global Arguments createChannel {Connection} _ _.
Global Arguments assertQueue {Connection} _ _ _.

(** [useFactory]: connect, open a channel, assert the durable queue; a
    rejection anywhere is caught and answered with [null]. *)
Definition useFactory {Connection} (amqplib : Amqplib Connection)
    (url : string) : option RabbitMQ.Channel :=
  match connect amqplib url with
  | Rejected _ => None
  | Resolved connection =>
      match createChannel amqplib connection with
      | Rejected _ => None
      | Resolved channel =>
          match assertQueue amqplib channel RabbitMQ.ORDERS_QUEUE with
          | Rejected _ => None
          | Resolved _ => Some channel
          end
      end
  end.

End RabbitMQProvider.

(** [orders/orders.service.ts] *)
Module OrdersService.

Inductive OrderStatus : Type :=
  pending | queued | processing | completed | failed.

Record Order : Type := {
  id : Z;
  customer_id : string;
  driver_id : string;
  inventory_id : string;
  quantity : Z;
  status : OrderStatus;
  metadata : Json;
  created_at : Z;
  updated_at : Z;
}.

(** The injected collaborators: the channel ([null] when the broker was
    unreachable at start-up) and the process clock. *)
Record t : Type := {
  channel : option RabbitMQ.Channel;
  Date_now : Z;
}.

(** ** The [orders] table of [002_orders_table.sql] *)

(** [quantity INTEGER NOT NULL CHECK (quantity > 0)] *)
Definition quantity_ok (q : Z) : bool := (0 <? q) && (q <=? INT4_MAX).

(** [INSERT INTO orders (..) VALUES (..) RETURNING *]: the key comes
    from the sequence, both timestamps default to [NOW()]. *)
Definition insert_order (c d i : string) (q : Z) (s : OrderStatus)
    (m : Json) : M (Db Order) Order :=
  now <- issue INSERT ;;
  key <- nextval ;;
  tbl <- get_table ;;
  if negb (quantity_ok q) then
    throw (QueryFailedError "violates check constraint orders_quantity_check")
  else
    match tbl !! key with
    | Some _ => throw (QueryFailedError "duplicate key value orders_pkey")
    | None =>
        let row :=
          {| id := key; customer_id := c; driver_id := d;
             inventory_id := i; quantity := q; status := s;
             metadata := m; created_at := now; updated_at := now |} in
        _ <- put_table (<[key := row]> tbl) ;;
        ret row
    end.

(** The trigger [trg_orders_updated_at], [BEFORE UPDATE .. FOR EACH ROW]. *)
Definition orders_set_updated_at (now : Z) (r : Order) : Order :=
  {| id := id r; customer_id := customer_id r; driver_id := driver_id r;
     inventory_id := inventory_id r; quantity := quantity r;
     status := status r; metadata := metadata r;
     created_at := created_at r; updated_at := now |}.

(** [UPDATE orders SET .. WHERE id = .. RETURNING *], the [SET] list
    given as a function of [NOW()] and the row, which may be rejected. *)
Definition update_order (key : Z) (set : Z -> Order -> Result Order)
    : M (Db Order) (list Order) :=
  now <- issue UPDATE ;;
  tbl <- get_table ;;
  match tbl !! key with
  | None => ret []
  | Some old =>
      new <- lift (set now old) ;;
      if negb (quantity_ok (quantity new)) then
        throw (QueryFailedError "violates check constraint orders_quantity_check")
      else
        let row := orders_set_updated_at now new in
        _ <- put_table (<[key := row]> tbl) ;;
        ret [row]
  end.

(** [SET status = .., updated_at = NOW()] *)
Definition set_status (s : OrderStatus) (now : Z) (r : Order)
    : Result Order :=
  Ok {| id := id r; customer_id := customer_id r;
        driver_id := driver_id r; inventory_id := inventory_id r;
        quantity := quantity r; status := s; metadata := metadata r;
        created_at := created_at r; updated_at := now |}.

(** ** A statement whose [SET] list is raw text with [$n] placeholders *)

(** The parameter [$n] of the bind message, if it was bound. *)
Definition param (params : list SqlValue) (n : nat) : Result SqlValue :=
  match n with
  | O => Throw (QueryFailedError "there is no parameter $0")
  | S i =>
      match params !! i with
      | Some v => Ok v
      | None => Throw (QueryFailedError "bind message supplies too few parameters")
      end
  end.

(** Every placeholder of the [SET] list, looked up in the bind message. *)
Fixpoint bind_clauses (params : list SqlValue)
    (clauses : list (string * nat)) : Result (list (string * SqlValue)) :=
  match clauses with
  | [] => Ok []
  | (column, n) :: rest =>
      match param params n with
      | Throw e => Throw e
      | Ok v =>
          match bind_clauses params rest with
          | Throw e => Throw e
          | Ok bound => Ok ((column, v) :: bound)
          end
      end
  end.

(** A value on its way into a column: taken as it is when it has the
    column's type, converted by the server otherwise. *)
Definition as_text `{Casts} (v : SqlValue) : option string :=
  match v with
  | SqlText s => Some s
  | _ => match assign_cast TText v with
         | Some (SqlText s) => Some s
         | _ => None
         end
  end.
Definition as_integer `{Casts} (v : SqlValue) : option Z :=
  match v with
  | SqlInt n => Some n
  | _ => match assign_cast TInteger v with
         | Some (SqlInt n) => Some n
         | _ => None
         end
  end.
Definition as_jsonb `{Casts} (v : SqlValue) : option Json :=
  match v with
  | SqlJson j => Some j
  | _ => match assign_cast TJsonb v with
         | Some (SqlJson j) => Some j
         | _ => None
         end
  end.

Definition rejected {A} : Result A :=
  Throw (QueryFailedError "column and expression types differ").

(** [column = value] applied to a row. *)
Definition assign `{Casts} (r : Result Order) (clause : string * SqlValue)
    : Result Order :=
  match r with
  | Throw e => Throw e
  | Ok r =>
      let v := clause.2 in
      if String.eqb clause.1 "customer_id" then
        match as_text v with
        | Some s =>
            Ok {| id := id r; customer_id := s; driver_id := driver_id r;
                  inventory_id := inventory_id r; quantity := quantity r;
                  status := status r; metadata := metadata r;
                  created_at := created_at r; updated_at := updated_at r |}
        | None => rejected
        end
      else if String.eqb clause.1 "driver_id" then
        match as_text v with
        | Some s =>
            Ok {| id := id r; customer_id := customer_id r; driver_id := s;
                  inventory_id := inventory_id r; quantity := quantity r;
                  status := status r; metadata := metadata r;
                  created_at := created_at r; updated_at := updated_at r |}
        | None => rejected
        end
      else if String.eqb clause.1 "inventory_id" then
        match as_text v with
        | Some s =>
            Ok {| id := id r; customer_id := customer_id r;
                  driver_id := driver_id r; inventory_id := s;
                  quantity := quantity r; status := status r;
                  metadata := metadata r; created_at := created_at r;
                  updated_at := updated_at r |}
        | None => rejected
        end
      else if String.eqb clause.1 "quantity" then
        match as_integer v with
        | Some n =>
            Ok {| id := id r; customer_id := customer_id r;
                  driver_id := driver_id r; inventory_id := inventory_id r;
                  quantity := n; status := status r;
                  metadata := metadata r; created_at := created_at r;
                  updated_at := updated_at r |}
        | None => rejected
        end
      else if String.eqb clause.1 "metadata" then
        match as_jsonb v with
        | Some j =>
            Ok {| id := id r; customer_id := customer_id r;
                  driver_id := driver_id r; inventory_id := inventory_id r;
                  quantity := quantity r; status := status r;
                  metadata := j; created_at := created_at r;
                  updated_at := updated_at r |}
        | None => rejected
        end
      else Throw (QueryFailedError "column does not exist")
  end.

(** [UPDATE orders SET <raw>, updated_at = NOW() WHERE id = $1
    RETURNING *] sent with the bind message [params]: the placeholders
    of the raw text and the [$1] of the [WHERE] read the same bind
    message. *)
Definition update_raw `{Casts} (setClauses : list (string * nat))
    (params : list SqlValue) : M (Db Order) (list Order) :=
  match bind_clauses params setClauses, param params 1 with
  | Ok bound, Ok (SqlInt key) =>
      update_order key
        (fun now old =>
           match foldl assign (Ok old) bound with
           | Ok new => Ok (orders_set_updated_at now new)
           | Throw e => Throw e
           end)
  | Ok _, Ok _ =>
      _ <- issue UPDATE ;;
      throw (QueryFailedError "operator does not exist")
  | Throw e, _ | _, Throw e => _ <- issue UPDATE ;; throw e
  end.

(** ** The service methods *)

(** [JSON.stringify(v)] bound to a [jsonb] column reads back as [v]. *)
Definition JSON_stringify (v : Json) : Json := v.

(** The payload of [publishToQueue]. *)
Definition message (this : t) (order : Order) : RabbitMQ.Message :=
  {| RabbitMQ.orderId := id order;
     RabbitMQ.customerId := customer_id order;
     RabbitMQ.driverId := driver_id order;
     RabbitMQ.inventoryId := inventory_id order;
     RabbitMQ.quantity := quantity order;
     RabbitMQ.metadata := metadata order;
     RabbitMQ.publishedAt := Date_now this |}.

Definition publishToQueue (this : t) (order : Order) : bool :=
  match channel this with
  | None => false
  | Some ch =>
      match RabbitMQ.sendToQueue ch RabbitMQ.ORDERS_QUEUE
              (message this order) with
      | RabbitMQ.Returned ok => ok
      | RabbitMQ.Threw => false
      end
  end.

(** [const [updated] = rows; return updated]: [None] is [undefined]. *)
Definition create (this : t) (dto : CreateOrderDto.t)
    : M (Db Order) (option Order) :=
  order <- insert_order (CreateOrderDto.customerId dto)
             (CreateOrderDto.driverId dto)
             (CreateOrderDto.inventoryId dto)
             (CreateOrderDto.quantity dto)
             pending
             (JSON_stringify
                (default (JObject []) (CreateOrderDto.metadata dto))) ;;
  let published := publishToQueue this order in
  if published then
    rows <- update_order (id order) (set_status queued) ;;
    ret (head rows)
  else ret (Some order).

Definition findOne (key : Z) : M (Db Order) Order :=
  rows <- select (fun tbl => Ok (where_id key tbl)) ;;
  match head rows with
  | None => throw (NotFoundException "Order not found")
  | Some order => ret order
  end.

(** The [if (dto.x !== undefined) { fields.push(..); values.push(..) }]
    lines, one list per array. *)
Definition push_if {A B} (present : option A) (x : B) (l : list B)
    : list B :=
  match present with Some _ => l ++ [x] | None => l end.

Definition update_fields (dto : UpdateOrderDto.t) : list string :=
  let fields := [] in
  let fields := push_if (UpdateOrderDto.customerId dto) "customer_id" fields in
  let fields := push_if (UpdateOrderDto.driverId dto) "driver_id" fields in
  let fields := push_if (UpdateOrderDto.inventoryId dto) "inventory_id" fields in
  let fields := push_if (UpdateOrderDto.quantity dto) "quantity" fields in
  push_if (UpdateOrderDto.metadata dto) "metadata" fields.

Definition push_value {A} (present : option A) (f : A -> SqlValue)
    (l : list SqlValue) : list SqlValue :=
  match present with Some a => l ++ [f a] | None => l end.

Definition update_values (dto : UpdateOrderDto.t) : list SqlValue :=
  let values := [] in
  let values := push_value (UpdateOrderDto.customerId dto) SqlText values in
  let values := push_value (UpdateOrderDto.driverId dto) SqlText values in
  let values := push_value (UpdateOrderDto.inventoryId dto) SqlText values in
  let values := push_value (UpdateOrderDto.quantity dto) SqlInt values in
  push_value (UpdateOrderDto.metadata dto)
    (fun m => SqlJson (JSON_stringify m)) values.

(** [fields.map((f, i) => `${f} = $${i + 1}`)] *)
Definition setClauses (fields : list string) : list (string * nat) :=
  imap (fun i f => (f, S i)) fields.

(** The only value interpolated into the statement is [id], so the bind
    message is [[id]]; [values] is filled and then not used. *)
Definition update `{Casts} (key : Z) (dto : UpdateOrderDto.t)
    : M (Db Order) (option Order) :=
  _ <- findOne key ;;
  let fields := update_fields dto in
  let values := update_values dto in
  if decide (length fields = 0%nat) then
    order <- findOne key ;; ret (Some order)
  else
    rows <- update_raw (setClauses fields) [SqlInt key] ;;
    ret (head rows).

Definition updateStatus (key : Z) (s : OrderStatus)
    : M (Db Order) (option Order) :=
  _ <- findOne key ;;
  rows <- update_order key (set_status s) ;;
  ret (head rows).

(** The text of a status, as the column holds it. *)
Definition status_text (s : OrderStatus) : string :=
  match s with
  | pending => "pending"
  | queued => "queued"
  | processing => "processing"
  | completed => "completed"
  | failed => "failed"
  end.

(** [findAll]: with a truthy status, the orders of that status; without,
    all of them; newest first either way. *)
Definition findAll (status : option string) : M (Db Order) (list Order) :=
  if truthy_opt status then
    select (fun tbl =>
      Ok (order_by_desc_Z created_at
            (List.filter
               (fun o => bool_decide
                           (Some (status_text (OrdersService.status o)) = status))
               (map_to_list tbl).*2)))
  else
    select (fun tbl =>
      Ok (order_by_desc_Z created_at (map_to_list tbl).*2)).

(** [{ deleted: true }] *)
Record Deleted : Type := { deleted : bool }.

Definition remove (key : Z) : M (Db Order) Deleted :=
  _ <- findOne key ;;
  _ <- delete_where_id key ;;
  ret {| deleted := true |}.

(** What [queueStats] answers when there is a channel. *)
Record QueueStats : Type := {
  queue : string;
  messageCount : Z;
  consumerCount : Z;
}.

(** [None] is [null]. *)
Definition queueStats `{RabbitMQ.Broker} (this : t)
    : Result (option QueueStats) :=
  match channel this with
  | None => Ok None
  | Some ch =>
      match RabbitMQ.checkQueue ch RabbitMQ.ORDERS_QUEUE with
      | Throw e => Throw e
      | Ok q =>
          Ok (Some {| queue := RabbitMQ.queue q;
                      messageCount := RabbitMQ.messageCount q;
                      consumerCount := RabbitMQ.consumerCount q |})
      end
  end.

End OrdersService.

(** [orders/orders.controller.ts] *)
Module OrdersController.

Definition create (ordersService : OrdersService.t)
    (dto : CreateOrderDto.t) :=
  OrdersService.create ordersService dto.

Definition update `{Casts} (key : Z) (dto : UpdateOrderDto.t) :=
  OrdersService.update key dto.

Definition findAll (status : option string) :=
  OrdersService.findAll status.

Definition queueStats `{RabbitMQ.Broker} (ordersService : OrdersService.t) :=
  OrdersService.queueStats ordersService.

Definition findOne (key : Z) := OrdersService.findOne key.

Definition updateStatus (key : Z) (status : OrdersService.OrderStatus) :=
  OrdersService.updateStatus key status.

Definition remove (key : Z) := OrdersService.remove key.

End OrdersController.

(** [main.ts] *)
Module Main.

(** [NestFactory.create(AppModule)], the Swagger set-up and
    [app.listen]: the application is created with no global pipe and
    none is added. *)
Definition bootstrap : NestApplication := {| globalPipes := [] |}.

(** [POST /orders]: the body goes through the application's pipes and
    on to the handler, which has no pipe of its own. *)
Definition POST_orders (app : NestApplication)
    (ordersService : OrdersService.t) (body : CreateOrderDto.t)
    : M (Db OrdersService.Order) (option OrdersService.Order) :=
  dto <- lift (apply_pipes CreateOrderDto.validate (globalPipes app) body) ;;
  OrdersController.create ordersService dto.

End Main.

(* ================================================================== *)
(** * [LIKE] and [ILIKE] patterns                                       *)
(* ================================================================== *)

Module Like.

Inductive Token : Type :=
| AnyString            (* [%] *)
| AnyChar              (* [_] *)
| Literal (c : ascii).

(** The pattern read left to right; a backslash takes the next
    character literally and may not end the pattern. *)
Fixpoint tokens (p : list ascii) : option (list Token) :=
  match p with
  | [] => Some []
  | c :: rest =>
      if Ascii.eqb c "\" then
        match rest with
        | [] => None
        | d :: rest' =>
            match tokens rest' with
            | Some ts => Some (Literal d :: ts)
            | None => None
            end
        end
      else
        match tokens rest with
        | Some ts =>
            Some ((if Ascii.eqb c "%" then AnyString
                   else if Ascii.eqb c "_" then AnyChar
                   else Literal c) :: ts)
        | None => None
        end
  end.

Definition lower (c : ascii) : ascii :=
  let n := nat_of_ascii c in
  if ((65 <=? n) && (n <=? 90))%nat then ascii_of_nat (n + 32) else c.

Fixpoint matches (case_insensitive : bool) (p : list Token)
    (s : list ascii) {struct p} : bool :=
  match p with
  | [] => match s with [] => true | _ => false end
  | AnyString :: p' =>
      (fix skip (s : list ascii) : bool :=
         matches case_insensitive p' s
         || match s with [] => false | _ :: s' => skip s' end) s
  | AnyChar :: p' =>
      match s with [] => false | _ :: s' => matches case_insensitive p' s' end
  | Literal c :: p' =>
      match s with
      | [] => false
      | d :: s' =>
          (if case_insensitive then Ascii.eqb (lower c) (lower d)
           else Ascii.eqb c d)
          && matches case_insensitive p' s'
      end
  end.

(** [s ILIKE pattern]; [None] when the server rejects the pattern. *)
Definition ilike (s pattern : string) : option bool :=
  match tokens (list_ascii_of_string pattern) with
  | Some ts => Some (matches true ts (list_ascii_of_string s))
  | None => None
  end.

End Like.

(* ================================================================== *)
(** * Inventory: [src/inventory/]                                       *)
(* ================================================================== *)

(** [inventory/dto/create-inventory.dto.ts], every field optional as in
    [Partial<CreateInventoryDto>]; [None] is [undefined]. *)
Module PartialCreateInventoryDto.

Record t : Type := {
  name : option string;
  description : option string;
  metadata : option Json;
}.

End PartialCreateInventoryDto.


(** [inventory/dto/create-inventory.dto.ts] *)
Module CreateInventoryDto.

Record t : Type := {
  name : string;
  description : option string;
  metadata : option Json;
}.

End CreateInventoryDto.

(** [inventory/inventory.service.ts] *)
Module InventoryService.

(** A row of the [inventory] table. *)
Module Item.
Record t : Type := {
  id : Z;
  name : string;
  description : option string;
  metadata : Json;
  embedding : option (list Q);
  created_at : Z;
}.
End Item.

(** The columns every method selects or returns, and the score column
    the search methods add to them. *)
Module Row.
Record t : Type := {
  id : Z;
  name : string;
  description : option string;
  metadata : Json;
  created_at : Z;
}.
End Row.

Record Scored : Type := {
  row : Row.t;
  score_column : string;
  score : Q;
}.

Definition columns (i : Item.t) : Row.t :=
  {| Row.id := Item.id i; Row.name := Item.name i;
     Row.description := Item.description i;
     Row.metadata := Item.metadata i;
     Row.created_at := Item.created_at i |}.

(** [coalesce(name, '') || ' ' || coalesce(description, '')] *)
Definition document (i : Item.t) : string :=
  (Item.name i ++ " " ++ default "" (Item.description i))%string.

Definition findOne (key : Z) : M (Db Item.t) (option Row.t) :=
  select (fun tbl => Ok (head (columns <$> where_id key tbl))).

(** The [WHERE] of [search]: the text-search match or the substring
    pattern on the name. *)
Definition search_where `{TextSearch} (query : string) (i : Item.t)
    : option bool :=
  match Like.ilike (Item.name i) ("%" ++ query ++ "%")%string with
  | Some substring => Some (ts_match (document i) query || substring)
  | None => None
  end.

Definition with_rank `{TextSearch} (query : string) (i : Item.t) : Scored :=
  {| row := columns i; score_column := "rank";
     score := ts_rank (document i) query |}.

(** The rows a predicate keeps, or the rejection it ran into. *)
Fixpoint filter_rows {A} (p : A -> option bool) (l : list A)
    : Result (list A) :=
  match l with
  | [] => Ok []
  | x :: rest =>
      match p x, filter_rows p rest with
      | Some keep, Ok kept => Ok (if keep then x :: kept else kept)
      | None, _ => Throw (QueryFailedError "LIKE pattern must not end with escape character")
      | _, Throw e => Throw e
      end
  end.

Definition search `{TextSearch} (tbl : gmap Z Item.t) (query : string)
    (limit : Z) : Result (list Scored) :=
  match filter_rows (search_where query) (map_to_list tbl).*2 with
  | Throw e => Throw e
  | Ok matching =>
      limit_rows limit
        (order_by_desc_Q score (with_rank query <$> matching))
  end.

(** The two common table expressions of [hybridSearch], keyed by [id]. *)
Definition fts `{TextSearch} (tbl : gmap Z Item.t) (query : string)
    : gmap Z Q :=
  omap (fun i => if ts_match (document i) query
                 then Some (ts_rank (document i) query) else None) tbl.

Definition vec `{Vector} (tbl : gmap Z Item.t) (queryEmbedding : list Q)
    : gmap Z Q :=
  omap (fun i =>
          match Item.embedding i with
          | Some e => Some (1 - cosine_distance e queryEmbedding)%Q
          | None => None
          end) tbl.

(** [COALESCE(x, 0)] *)
Definition coalesce0 (x : option Q) : Q := default 0%Q x.

(** One row of [inventory i LEFT JOIN fts .. LEFT JOIN vec ..], with
    the score of the select list. *)
Definition with_hybrid_score (bm25_score cosine_score : option Q)
    (i : Item.t) : Scored :=
  {| row := columns i; score_column := "hybrid_score";
     score := (coalesce0 bm25_score * (4 # 10)
               + coalesce0 cosine_score * (6 # 10))%Q |}.

Definition hybrid_rows `{TextSearch} `{Vector} (tbl : gmap Z Item.t)
    (query : string) (queryEmbedding : list Q) : list Scored :=
  let fts := fts tbl query in
  let vec := vec tbl queryEmbedding in
  omap (fun '(key, i) =>
          let f := fts !! key in
          let v := vec !! key in
          if is_not_null f || is_not_null v
          then Some (with_hybrid_score f v i) else None)
       (map_to_list tbl).

Definition hybridSearch `{TextSearch} `{Vector} (tbl : gmap Z Item.t)
    (query : string) (queryEmbedding : option (list Q)) (limit : Z)
    : Result (list Scored) :=
  match queryEmbedding with
  | None => search tbl query limit
  | Some queryEmbedding =>
      limit_rows limit
        (order_by_desc_Q score (hybrid_rows tbl query queryEmbedding))
  end.

(** The [SET] object of [update]: one entry per field that is not
    [undefined], in the order the lines add them. *)
Inductive Assignment : Type :=
| set_name (v : string)
| set_description (v : string)
| set_metadata (v : Json).

Definition updateData (dto : PartialCreateInventoryDto.t)
    : list Assignment :=
  match PartialCreateInventoryDto.name dto with
  | Some v => [set_name v] | None => [] end
  ++ match PartialCreateInventoryDto.description dto with
     | Some v => [set_description v] | None => [] end
  ++ match PartialCreateInventoryDto.metadata dto with
     | Some v => [set_metadata v] | None => [] end.

Definition assign (i : Item.t) (a : Assignment) : Item.t :=
  match a with
  | set_name v =>
      {| Item.id := Item.id i; Item.name := v;
         Item.description := Item.description i;
         Item.metadata := Item.metadata i;
         Item.embedding := Item.embedding i;
         Item.created_at := Item.created_at i |}
  | set_description v =>
      {| Item.id := Item.id i; Item.name := Item.name i;
         Item.description := Some v;
         Item.metadata := Item.metadata i;
         Item.embedding := Item.embedding i;
         Item.created_at := Item.created_at i |}
  | set_metadata v =>
      {| Item.id := Item.id i; Item.name := Item.name i;
         Item.description := Item.description i;
         Item.metadata := v;
         Item.embedding := Item.embedding i;
         Item.created_at := Item.created_at i |}
  end.

(** [updateTable('inventory').set(updateData).where('id', '=', id)
    .returning([..])]; with nothing to set the statement has an empty
    [SET] list, which the server does not parse. *)
Definition update (key : Z) (dto : PartialCreateInventoryDto.t)
    : M (Db Item.t) (option Row.t) :=
  let updateData := updateData dto in
  _ <- issue UPDATE ;;
  tbl <- get_table ;;
  match updateData with
  | [] => throw (QueryFailedError "syntax error at or near WHERE")
  | _ =>
      match tbl !! key with
      | None => ret None
      | Some old =>
          let new := foldl assign old updateData in
          _ <- put_table (<[key := new]> tbl) ;;
          ret (Some (columns new))
      end
  end.

(** [create]: [description ?? null], the metadata or ['{}'], the key
    from the sequence, [created_at] by default [NOW()]; no embedding. *)
Definition create (dto : CreateInventoryDto.t) : M (Db Item.t) Row.t :=
  now <- issue INSERT ;;
  key <- nextval ;;
  tbl <- get_table ;;
  match tbl !! key with
  | Some _ => throw (QueryFailedError "duplicate key value inventory_pkey")
  | None =>
      let item :=
        {| Item.id := key;
           Item.name := CreateInventoryDto.name dto;
           Item.description := CreateInventoryDto.description dto;
           Item.metadata :=
             match CreateInventoryDto.metadata dto with
             | Some m => m
             | None => JObject []
             end;
           Item.embedding := None;
           Item.created_at := now |} in
      _ <- put_table (<[key := item]> tbl) ;;
      ret (columns item)
  end.

(** [findAll]: newest first, then [OFFSET] and [LIMIT]. *)
Definition findAll (limit offset : option Z)
    : M (Db Item.t) (list Row.t) :=
  let limit := default 20 limit in
  let offset := default 0 offset in
  select (fun tbl =>
    limit_offset limit offset
      (order_by_desc_Z Row.created_at (columns <$> (map_to_list tbl).*2))).

Definition with_similarity `{Trigram} (query : string) (i : Item.t)
    : Scored :=
  {| row := columns i; score_column := "similarity";
     score := similarity (Item.name i) query |}.

(** [fuzzySearch]: the names more than 0.2 similar to the query, most
    similar first. *)
Definition fuzzySearch `{Trigram} (tbl : gmap Z Item.t) (query : string)
    (limit : option Z) : Result (list Scored) :=
  let limit := default 10 limit in
  limit_rows limit
    (order_by_desc_Q score
       (with_similarity query
          <$> List.filter
                (fun i => Qgt_bool (similarity (Item.name i) query) (2 # 10))
                (map_to_list tbl).*2)).

(** [remove]: [deleteFrom .. returning(['id', 'name'])], [deleted ??
    null]. *)
Definition remove (key : Z) : M (Db Item.t) (option (Z * string)) :=
  rows <- delete_where_id key ;;
  ret (head ((fun i => (Item.id i, Item.name i)) <$> rows)).

End InventoryService.

(** [inventory/inventory.controller.ts] *)
Module InventoryController.

(** [GET /inventory/search]: [limit] defaults to 10 when the query
    string has none. *)
Definition search `{TextSearch} (tbl : gmap Z InventoryService.Item.t)
    (q : string) (limit : option Z) :=
  InventoryService.search tbl q (default 10 limit).

Definition create (dto : CreateInventoryDto.t) :=
  InventoryService.create dto.

(** [GET /inventory]: ['20'] and ['0'] when the query string has none. *)
Definition findAll (limit offset : option Z) :=
  InventoryService.findAll (Some (default 20 limit))
    (Some (default 0 offset)).

Definition fuzzySearch `{Trigram} (tbl : gmap Z InventoryService.Item.t)
    (q : string) (limit : option Z) :=
  InventoryService.fuzzySearch tbl q (Some (default 10 limit)).

Definition not_found : Exception :=
  NotFoundException "Inventory item not found".

(** [GET /inventory/:id] *)
Definition findOne (key : Z)
    : M (Db InventoryService.Item.t) InventoryService.Row.t :=
  item <- InventoryService.findOne key ;;
  match item with
  | None => throw not_found
  | Some item => ret item
  end.

(** [PUT /inventory/:id] *)
Definition update (key : Z) (dto : PartialCreateInventoryDto.t)
    : M (Db InventoryService.Item.t) InventoryService.Row.t :=
  item <- InventoryService.update key dto ;;
  match item with
  | None => throw not_found
  | Some item => ret item
  end.

(** [{ message, id }] *)
Record Removed : Type := { message : string; id : Z }.

(** The double quote, to build the message. *)
Definition quote : string := String (ascii_of_nat 34) EmptyString.

(** [DELETE /inventory/:id] *)
Definition remove (key : Z) : M (Db InventoryService.Item.t) Removed :=
  item <- InventoryService.remove key ;;
  match item with
  | None => throw not_found
  | Some (item_id, item_name) =>
      ret {| message :=
               ("Item " ++ quote ++ item_name ++ quote ++ " deleted")%string;
             id := item_id |}
  end.

End InventoryController.

(* ================================================================== *)
(** * Drivers: [src/drivers/]                                           *)
(* ================================================================== *)

(** [drivers/driver.types.ts] *)
Module DriverLocation.
(** The GeoJSON point [ST_AsGeoJSON] renders: [[longitude, latitude]]. *)
Record t : Type := {
  type : string;
  coordinates : Q * Q;
}.
End DriverLocation.

Module DriverRow.
Record t : Type := {
  id : Z;
  name : string;
  status : string;
  location : option DriverLocation.t;
}.
End DriverRow.

Module NearbyDriverRow.
Record t : Type := {
  id : Z;
  name : string;
  status : string;
  location : option DriverLocation.t;
  distance_m : Z;
}.
End NearbyDriverRow.

Module DriverDistance.
Record t : Type := {
  driver_a : Z;
  driver_b : Z;
  distance_m : Z;
}.
End DriverDistance.

(** [drivers/dto/create-driver.dto.ts] and [update-driver.dto.ts]
    ([PartialType(CreateDriverDto)]); [None] is [undefined]. *)
Module LocationDto.
Record t : Type := { lat : Q; lon : Q }.
End LocationDto.

Module UpdateDriverDto.
Record t : Type := {
  name : option string;
  location : option LocationDto.t;
  status : option string;
}.

Definition empty : t :=
  {| name := None; location := None; status := None |}.
End UpdateDriverDto.


Module CreateDriverDto.
Record t : Type := {
  name : string;
  location : option LocationDto.t;
  status : option string;
}.
End CreateDriverDto.

(** [drivers/drivers.service.ts] *)
Module DriversService.

(** A row of the [drivers] table. *)
Module Driver.
Record t : Type := {
  id : Z;
  name : string;
  location : option Point;
  status : string;
}.
End Driver.

(** [ST_AsGeoJSON(location)::jsonb] *)
Definition ST_AsGeoJSON (location : option Point)
    : option DriverLocation.t :=
  match location with
  | Some p =>
      Some {| DriverLocation.type := "Point";
              DriverLocation.coordinates := (Pg.lon p, Pg.lat p) |}
  | None => None
  end.

(** [ST_SetSRID(ST_MakePoint(lon, lat), 4326)::geography] *)
Definition geography (lon lat : Q) : Point := MakePoint lon lat.

(** The select list [id, name, status, ST_AsGeoJSON(location)]. *)
Definition columns (d : Driver.t) : DriverRow.t :=
  {| DriverRow.id := Driver.id d; DriverRow.name := Driver.name d;
     DriverRow.status := Driver.status d;
     DriverRow.location := ST_AsGeoJSON (Driver.location d) |}.

Definition findOne (key : Z) : M (Db Driver.t) DriverRow.t :=
  rows <- select (fun tbl => Ok (columns <$> where_id key tbl)) ;;
  match head rows with
  | None => throw (NotFoundException "Driver not found")
  | Some row => ret row
  end.

(** The fragments pushed on [setParts]. *)
Inductive SetPart : Type :=
| set_name (v : string)
| set_status (v : string)
| set_location (lon lat : Q).

Definition setParts (dto : UpdateDriverDto.t) : list SetPart :=
  let setParts := [] in
  let setParts :=
    match UpdateDriverDto.name dto with
    | Some v => setParts ++ [set_name v] | None => setParts end in
  let setParts :=
    match UpdateDriverDto.status dto with
    | Some v => setParts ++ [set_status v] | None => setParts end in
  match UpdateDriverDto.location dto with
  | Some l => setParts ++ [set_location (LocationDto.lon l) (LocationDto.lat l)]
  | None => setParts
  end.

Definition assign (d : Driver.t) (part : SetPart) : Driver.t :=
  match part with
  | set_name v =>
      {| Driver.id := Driver.id d; Driver.name := v;
         Driver.location := Driver.location d;
         Driver.status := Driver.status d |}
  | set_status v =>
      {| Driver.id := Driver.id d; Driver.name := Driver.name d;
         Driver.location := Driver.location d; Driver.status := v |}
  | set_location lon lat =>
      {| Driver.id := Driver.id d; Driver.name := Driver.name d;
         Driver.location := Some (geography lon lat);
         Driver.status := Driver.status d |}
  end.

(** [return result.rows[0]]: [None] is [undefined]. *)
Definition update (key : Z) (dto : UpdateDriverDto.t)
    : M (Db Driver.t) (option DriverRow.t) :=
  _ <- findOne key ;;
  let setParts := setParts dto in
  if decide (length setParts = 0%nat) then
    row <- findOne key ;; ret (Some row)
  else
    _ <- issue UPDATE ;;
    tbl <- get_table ;;
    match tbl !! key with
    | None => ret None
    | Some old =>
        let new := foldl assign old setParts in
        _ <- put_table (<[key := new]> tbl) ;;
        ret (Some (columns new))
    end.

(** The [WHERE] of [findNearby]: a location, within the radius, and
    the status when a truthy one is given. *)
Definition nearby_where `{Geography} (lat lon radiusMetres : Q)
    (status : option string) (d : Driver.t) : bool :=
  match Driver.location d with
  | None => false
  | Some location =>
      ST_DWithin location (geography lon lat) radiusMetres
      && (if truthy_opt status
          then bool_decide (Some (Driver.status d) = status) else true)
  end.

(** The select list of [findNearby]; [distance_m] is
    [ST_Distance(..)::int]. *)
Definition nearby_columns `{Geography} (lat lon : Q) (d : Driver.t)
    : option NearbyDriverRow.t :=
  match Driver.location d with
  | None => None
  | Some location =>
      Some {| NearbyDriverRow.id := Driver.id d;
              NearbyDriverRow.name := Driver.name d;
              NearbyDriverRow.status := Driver.status d;
              NearbyDriverRow.location := ST_AsGeoJSON (Driver.location d);
              NearbyDriverRow.distance_m :=
                round_half_even (ST_Distance location (geography lon lat)) |}
  end.

Definition findNearby `{Geography} (tbl : gmap Z Driver.t) (lat lon : Q)
    (radiusMetres : option Q) (status : option string)
    : list NearbyDriverRow.t :=
  let radiusMetres := default 5000%Q radiusMetres in
  order_by_asc_Z NearbyDriverRow.distance_m
    (omap (nearby_columns lat lon)
       (List.filter (nearby_where lat lon radiusMetres status)
          (map_to_list tbl).*2)).

(** [FROM drivers a, drivers b WHERE a.id = .. AND b.id = .. AND
    a.location IS NOT NULL AND b.location IS NOT NULL]: at most one
    pair, the two keyed rows. *)
Definition distance_rows `{Geography} (tbl : gmap Z Driver.t)
    (driverAId driverBId : Z) : list Z :=
  a ← where_id driverAId tbl;
  b ← where_id driverBId tbl;
  match Driver.location a, Driver.location b with
  | Some la, Some lb => [round_half_even (ST_Distance la lb)]
  | _, _ => []
  end.

Definition distanceBetween `{Geography} (tbl : gmap Z Driver.t)
    (driverAId driverBId : Z) : Result DriverDistance.t :=
  match head (distance_rows tbl driverAId driverBId) with
  | None =>
      Throw (NotFoundException
               "Could not compute distance: no location or no such driver")
  | Some distance_m =>
      Ok {| DriverDistance.driver_a := driverAId;
            DriverDistance.driver_b := driverBId;
            DriverDistance.distance_m := distance_m |}
  end.

(** [create]: the point when a location is given and [NULL] when not,
    [status ?? 'offline'], the key from the sequence. *)
Definition create (dto : CreateDriverDto.t) : M (Db Driver.t) DriverRow.t :=
  _ <- issue INSERT ;;
  key <- nextval ;;
  tbl <- get_table ;;
  match tbl !! key with
  | Some _ => throw (QueryFailedError "duplicate key value drivers_pkey")
  | None =>
      let driver :=
        {| Driver.id := key;
           Driver.name := CreateDriverDto.name dto;
           Driver.location :=
             match CreateDriverDto.location dto with
             | Some l => Some (geography (LocationDto.lon l) (LocationDto.lat l))
             | None => None
             end;
           Driver.status := default "offline" (CreateDriverDto.status dto) |} in
      _ <- put_table (<[key := driver]> tbl) ;;
      ret (columns driver)
  end.

(** [findAll]: the drivers of a truthy status, or all of them, highest
    id first, then [OFFSET] and [LIMIT]. *)
Definition findAll (status : option string) (limit offset : option Z)
    : M (Db Driver.t) (list DriverRow.t) :=
  let limit := default 50 limit in
  let offset := default 0 offset in
  select (fun tbl =>
    limit_offset limit offset
      (order_by_desc_Z DriverRow.id
         (columns
            <$> List.filter
                  (fun d => if truthy_opt status
                            then bool_decide (Some (Driver.status d) = status)
                            else true)
                  (map_to_list tbl).*2))).

(** [{ message, id }] *)
Record Removed : Type := { message : string; id : Z }.

Definition remove (key : Z) : M (Db Driver.t) Removed :=
  _ <- findOne key ;;
  _ <- delete_where_id key ;;
  ret {| message := ("Driver #" ++ pretty key ++ " deleted")%string;
         id := key |}.

(** [updateLocation]: one [UPDATE] of the location column, no read
    before it. *)
Definition updateLocation (key : Z) (lat lon : Q)
    : M (Db Driver.t) DriverRow.t :=
  _ <- issue UPDATE ;;
  tbl <- get_table ;;
  match tbl !! key with
  | None => throw (NotFoundException "Driver not found")
  | Some old =>
      let new := assign old (set_location lon lat) in
      _ <- put_table (<[key := new]> tbl) ;;
      ret (columns new)
  end.

(** A row of [searchByName]. *)
Module DriverNameMatch.
Record t : Type := {
  id : Z;
  name : string;
  status : string;
  location : option DriverLocation.t;
  similarity : Q;
}.
End DriverNameMatch.



End DriversService.

(** [drivers/drivers.controller.ts] *)
Module DriversController.

(** [GET /drivers/nearby]: [radius_m] is ['5000'] when the query string
    has none, and the text is read as a number. *)
Definition findNearby `{Geography} (tbl : gmap Z DriversService.Driver.t)
    (lat lon : Q) (radiusM : option Q) (status : option string) :=
  DriversService.findNearby tbl lat lon
    (Some (default 5000%Q radiusM)) status.

(** [GET /drivers]: ['50'] and ['0'] when the query string has none. *)
Definition findAll (status : option string) (limit offset : option Z) :=
  DriversService.findAll status (Some (default 50 limit))
    (Some (default 0 offset)).

Definition updateLocation (key : Z) (lat lon : Q) :=
  DriversService.updateLocation key lat lon.

Definition remove (key : Z) := DriversService.remove key.

End DriversController.

(* ================================================================== *)
(** * Telemetry: [src/telemetry/]                                       *)
(* ================================================================== *)

(** [telemetry/dto/create-telemetry.dto.ts] *)
Module CreateTelemetryDto.
Record t : Type := {
  vehicle_id : string;
  speed : option Q;
  battery_level : option Q;
  temperature : option Q;
  location : option LocationDto.t;
  time : option string;
}.
End CreateTelemetryDto.

(** [telemetry/telemetry.service.ts] *)
Module TelemetryService.

(** A row of the [vehicle_telemetry] hypertable, which has no key. *)
Module Reading.
Record t : Type := {
  time : Z;
  vehicle_id : string;
  speed : option Q;
  battery_level : option Q;
  temperature : option Q;
  location : option Point;
}.
End Reading.

(** A row of [aggregate]. *)
Module Bucket.
Record t : Type := {
  bucket : Z;
  vehicle_id : string;
  avg_speed : option Q;
  avg_battery : option Q;
  avg_temperature : option Q;
  readings : Z;
}.
End Bucket.

(** The JS [Date] the method reads: the current instant and the
    instant a text denotes. *)
Class JsDate : Type := {
  Date_now : Z;
  Date_parse : string -> Z;
}.





(** [from ? new Date(from) : new Date(Date.now() - 86_400_000)] *)
Definition fromTime `{JsDate} (from : option string) : Z :=
  if truthy_opt from then Date_parse (default "" from)
  else Date_now - 86400000.

(** [to ? new Date(to) : new Date()] *)
Definition toTime `{JsDate} (to : option string) : Z :=
  if truthy_opt to then Date_parse (default "" to) else Date_now.




(** The select list of [create], [findAll] and [findLatest]: the
    columns, the location as GeoJSON. *)
Module Row.
Record t : Type := {
  time : Z;
  vehicle_id : string;
  speed : option Q;
  battery_level : option Q;
  temperature : option Q;
  location : option DriverLocation.t;
}.
End Row.

Definition columns (r : Reading.t) : Row.t :=
  {| Row.time := Reading.time r;
     Row.vehicle_id := Reading.vehicle_id r;
     Row.speed := Reading.speed r;
     Row.battery_level := Reading.battery_level r;
     Row.temperature := Reading.temperature r;
     Row.location := DriversService.ST_AsGeoJSON (Reading.location r) |}.

(** The row [create] inserts: the time of the request when it has a
    truthy one, the clock when not; [?? null] on the sensor fields. *)
Definition reading_of `{JsDate} (dto : CreateTelemetryDto.t) : Reading.t :=
  {| Reading.time :=
       if truthy_opt (CreateTelemetryDto.time dto)
       then Date_parse (default "" (CreateTelemetryDto.time dto))
       else Date_now;
     Reading.vehicle_id := CreateTelemetryDto.vehicle_id dto;
     Reading.speed := CreateTelemetryDto.speed dto;
     Reading.battery_level := CreateTelemetryDto.battery_level dto;
     Reading.temperature := CreateTelemetryDto.temperature dto;
     Reading.location :=
       match CreateTelemetryDto.location dto with
       | Some l =>
           Some (DriversService.geography (LocationDto.lon l)
                   (LocationDto.lat l))
       | None => None
       end |}.

(** [create]: one row more in the hypertable. *)
Definition create `{JsDate} (dto : CreateTelemetryDto.t)
    : M (list Reading.t) Row.t :=
  fun tbl =>
    let r := reading_of dto in
    (Ok (columns r), tbl ++ [r]).

(** [findAll]: latest first, the rows of a truthy vehicle or of all. *)
Definition findAll (tbl : list Reading.t) (vehicle_id : option string)
    (limit offset : option Z) : Result (list Row.t) :=
  let limit := default 50 limit in
  let offset := default 0 offset in
  limit_offset limit offset
    (order_by_desc_Z Row.time
       (columns
          <$> List.filter
                (fun r => if truthy_opt vehicle_id
                          then bool_decide (Some (Reading.vehicle_id r)
                                            = vehicle_id)
                          else true)
                tbl)).

(** [findLatest]: the first row of the vehicle, latest first. *)
Definition findLatest (tbl : list Reading.t) (vehicle_id : string)
    : Result Row.t :=
  match head (order_by_desc_Z Row.time
                (columns
                   <$> List.filter
                         (fun r => bool_decide
                                     (Reading.vehicle_id r = vehicle_id))
                         tbl)) with
  | None => Throw (NotFoundException "No telemetry found for vehicle")
  | Some row => Ok row
  end.

End TelemetryService.


(* ================================================================== *)
(** * Vocabulary of the statements, and sample stores                   *)
(* ================================================================== *)

Module OrdersSpec.

Import OrdersService.

(** The row [create] inserts: the next key of the sequence, the fields
    of the request, status [pending], both timestamps the clock. *)
Definition inserted (dto : CreateOrderDto.t) (db : Db Order) : Order :=
  {| id := id_seq db;
     customer_id := CreateOrderDto.customerId dto;
     driver_id := CreateOrderDto.driverId dto;
     inventory_id := CreateOrderDto.inventoryId dto;
     quantity := CreateOrderDto.quantity dto;
     status := pending;
     metadata := default (JObject []) (CreateOrderDto.metadata dto);
     created_at := clock db;
     updated_at := clock db |}.

(** The same row once marked [queued] by the second statement. *)
Definition enqueued (dto : CreateOrderDto.t) (db : Db Order) : Order :=
  {| id := id_seq db;
     customer_id := CreateOrderDto.customerId dto;
     driver_id := CreateOrderDto.driverId dto;
     inventory_id := CreateOrderDto.inventoryId dto;
     quantity := CreateOrderDto.quantity dto;
     status := queued;
     metadata := default (JObject []) (CreateOrderDto.metadata dto);
     created_at := clock db;
     updated_at := clock db + 1 |}.

(** The store after the insert alone, and after insert and update. *)
Definition after_insert (dto : CreateOrderDto.t) (db : Db Order)
    : Db Order :=
  {| table := <[id_seq db := inserted dto db]> (table db);
     id_seq := id_seq db + 1;
     clock := clock db + 1;
     issued := issued db ++ [INSERT] |}.

Definition after_update (dto : CreateOrderDto.t) (db : Db Order)
    : Db Order :=
  {| table := <[id_seq db := enqueued dto db]>
                (<[id_seq db := inserted dto db]> (table db));
     id_seq := id_seq db + 1;
     clock := clock db + 1 + 1;
     issued := (issued db ++ [INSERT]) ++ [UPDATE] |}.

(** The store takes the input: the quantity passes the column's
    constraints and the sequence has not run into a stored key. *)
Definition accepted (dto : CreateOrderDto.t) (db : Db Order) : Prop :=
  quantity_ok (CreateOrderDto.quantity dto) = true
  /\ table db !! id_seq db = None.

(** A fresh store, a well-formed request for two items, and the same
    request for none. *)
Definition db0 : Db Order :=
  {| table := ∅; id_seq := 1; clock := 1000; issued := [] |}.

Definition dto2 : CreateOrderDto.t :=
  {| CreateOrderDto.customerId := "customer-uuid-123";
     CreateOrderDto.driverId := "driver-uuid-456";
     CreateOrderDto.inventoryId := "item-uuid-789";
     CreateOrderDto.quantity := 2;
     CreateOrderDto.metadata := None |}.

Definition dto_zero : CreateOrderDto.t :=
  {| CreateOrderDto.customerId := "customer-uuid-123";
     CreateOrderDto.driverId := "driver-uuid-456";
     CreateOrderDto.inventoryId := "item-uuid-789";
     CreateOrderDto.quantity := 0;
     CreateOrderDto.metadata := None |}.

(** A broker that takes every message, and no broker at all. *)
Definition broker_up : OrdersService.t :=
  {| channel :=
       Some {| RabbitMQ.sendToQueue := fun _ _ => RabbitMQ.Returned true |};
     Date_now := 1000 |}.

Definition broker_down : OrdersService.t :=
  {| channel := None; Date_now := 1000 |}.

(** The store once [dto2] was created with the broker down: order 1,
    three of its fields to be changed below. *)
Definition order1 : Order :=
  {| id := 1; customer_id := "customer-uuid-123";
     driver_id := "driver-uuid-456"; inventory_id := "item-uuid-789";
     quantity := 2; status := pending; metadata := JObject [];
     created_at := 1000; updated_at := 1000 |}.

Definition db1 : Db Order :=
  {| table := {[ 1 := order1 ]}; id_seq := 2; clock := 1001;
     issued := [INSERT] |}.

(** [PATCH /orders/1] with body [{ "quantity": 7 }]. *)
Definition quantity7 : UpdateOrderDto.t :=
  {| UpdateOrderDto.customerId := None; UpdateOrderDto.driverId := None;
     UpdateOrderDto.inventoryId := None;
     UpdateOrderDto.quantity := Some 7;
     UpdateOrderDto.metadata := None |}.

(** A registration of the validation pipe, as [main.ts] could make it. *)
Definition with_validation : NestApplication :=
  {| globalPipes := [ValidationPipe] |}.

End OrdersSpec.

Module DriversSpec.

Import DriversService.

(** The geodesic distance does not depend on the order of its two
    arguments. *)
Definition symmetric_distance `{Geography} : Prop :=
  forall p q : Point, (ST_Distance p q == ST_Distance q p)%Q.

(** A distance to compute with: 111 195 m to the degree, along the
    meridian and then along the parallel. *)
Definition degrees_apart (p q : Point) : Q :=
  ((Qabs (lat p - lat q) + Qabs (lon p - lon q)) * 111195)%Q.

#[export] Instance sample_geography : Geography :=
  {| ST_Distance := degrees_apart |}.

(** Two drivers in San Francisco, one a little more than half a metre
    north of the point that is searched below, and one without a
    location. *)
Definition alice : Driver.t :=
  {| Driver.id := 1; Driver.name := "Alice Chen";
     Driver.location := Some (MakePoint (-1224194 # 10000) (37774905 # 1000000));
     Driver.status := "online" |}.

Definition bob : Driver.t :=
  {| Driver.id := 2; Driver.name := "Bob Okafor";
     Driver.location := Some (MakePoint (-1224094 # 10000) (377849 # 10000));
     Driver.status := "online" |}.

Definition carol : Driver.t :=
  {| Driver.id := 3; Driver.name := "Carol Diaz";
     Driver.location := None; Driver.status := "offline" |}.

Definition drivers : gmap Z Driver.t :=
  {[ 1 := alice; 2 := bob; 3 := carol ]}.

Definition drivers_db : Db Driver.t :=
  {| table := drivers; id_seq := 4; clock := 1000; issued := [] |}.

End DriversSpec.

Module InventorySpec.

Import InventoryService.





(** What [update] leaves of an item: each field of the request that is
    present, and the stored value of every other. *)
Definition patched (dto : PartialCreateInventoryDto.t) (i : Item.t)
    : Item.t :=
  {| Item.id := Item.id i;
     Item.name := default (Item.name i) (PartialCreateInventoryDto.name dto);
     Item.description :=
       match PartialCreateInventoryDto.description dto with
       | Some v => Some v
       | None => Item.description i
       end;
     Item.metadata :=
       default (Item.metadata i) (PartialCreateInventoryDto.metadata dto);
     Item.embedding := Item.embedding i;
     Item.created_at := Item.created_at i |}.

(** A text search to compute with: the query matches a document that
    contains it, whatever the case of the letters, and an empty query
    matches nothing. *)
Definition contains (doc query : string) : bool :=
  truthy query
  && Like.matches true
       ([Like.AnyString]
          ++ (Like.Literal <$> list_ascii_of_string query)
          ++ [Like.AnyString])
       (list_ascii_of_string doc).

#[export] Instance sample_text_search : TextSearch :=
  {| ts_match := contains;
     ts_rank := fun doc query => if contains doc query then (1 # 10)%Q else 0%Q |}.

(** Vectors compared by the distance of their first coordinates. *)
#[export] Instance sample_vector : Vector :=
  {| cosine_distance :=
       fun a b => Qabs (default 0%Q (head a) - default 0%Q (head b))%Q |}.

Definition headphones : Item.t :=
  {| Item.id := 1; Item.name := "Wireless Headphones";
     Item.description := Some "Noise-cancelling over-ear headphones";
     Item.metadata := JObject [("sku", "WH-1000")];
     Item.embedding := None; Item.created_at := 1000 |}.

Definition charger : Item.t :=
  {| Item.id := 2; Item.name := "USB-C Charger";
     Item.description := None;
     Item.metadata := JObject [];
     Item.embedding := Some [(1 # 2)%Q]; Item.created_at := 1001 |}.

Definition inventory : gmap Z Item.t :=
  {[ 1 := headphones; 2 := charger ]}.

Definition inventory_db : Db Item.t :=
  {| table := inventory; id_seq := 3; clock := 1002; issued := [] |}.

(** [PUT /inventory/1] with body [{ "description": "Over-ear" }]. *)
Definition new_description : PartialCreateInventoryDto.t :=
  {| PartialCreateInventoryDto.name := None;
     PartialCreateInventoryDto.description := Some "Over-ear";
     PartialCreateInventoryDto.metadata := None |}.

End InventorySpec.

Module TelemetrySpec.

Import TelemetryService.

(** A reading of the vehicle inside the closed window. *)
Definition in_window (vehicle_id : string) (fromTime toTime : Z)
    (r : Reading.t) : Prop :=
  Reading.vehicle_id r = vehicle_id
  /\ fromTime <= Reading.time r <= toTime.

#[export] Instance in_window_dec vehicle_id fromTime toTime r :
  Decision (in_window vehicle_id fromTime toTime r).
Proof. unfold in_window. apply _. Defined.



(** Buckets to compute with: a fixed width of one hour, whatever the
    interval text, counted from the epoch. *)
#[export] Instance hourly : Timescale :=
  {| time_bucket := fun _ t => 3600000 * (t `div` 3600000) |}.

(** A clock to compute with: noon of 18 February 2025, and the two
    instants of the example of the API documentation. *)
#[export] Instance sample_date : JsDate :=
  {| Date_now := 1739880000000;
     Date_parse := fun s =>
       if String.eqb s "2025-02-17T00:00:00Z" then 1739750400000
       else if String.eqb s "2025-02-18T00:00:00Z" then 1739836800000
       else 0 |}.


End TelemetrySpec.

(* ================================================================== *)
(** * Vocabulary of the further properties                              *)
(* ================================================================== *)

Module StoreSpec.

(** The store after one [SELECT]. *)
Definition after_select {Row} (db : Db Row) : Db Row :=
  {| table := table db; id_seq := id_seq db; clock := clock db + 1;
     issued := issued db ++ [SELECT] |}.


End StoreSpec.

Module OrdersInvariant.

Import OrdersService StoreSpec.

(** What the [orders] table keeps: a row is stored under its own id, the
    sequence is ahead of every stored key, and every stored quantity
    passes the check of the column. *)
Definition orders_wf (db : Db Order) : Prop :=
  forall key order,
    table db !! key = Some order ->
    id order = key /\ key < id_seq db /\ quantity_ok (quantity order) = true.

(** A stored order with another status, as [updateStatus] leaves it. *)
Definition with_status (s : OrderStatus) (now : Z) (o : Order) : Order :=
  {| id := id o; customer_id := customer_id o; driver_id := driver_id o;
     inventory_id := inventory_id o; quantity := quantity o; status := s;
     metadata := metadata o; created_at := created_at o;
     updated_at := now |}.

(** A computation that keeps the table sound. *)
Definition keeps_wf {A} (c : M (Db Order) A) : Prop :=
  forall db, orders_wf db -> orders_wf (snd (c db)).

Definition not_found : Exception := NotFoundException "Order not found".

(** [PATCH /orders/1] with two fields. *)
Definition two_fields : UpdateOrderDto.t :=
  {| UpdateOrderDto.customerId := Some "customer-uuid-999";
     UpdateOrderDto.driverId := None;
     UpdateOrderDto.inventoryId := None;
     UpdateOrderDto.quantity := Some 7;
     UpdateOrderDto.metadata := None |}.

(** A broker that cannot be reached, and one that can. *)
Definition unreachable : RabbitMQProvider.Amqplib unit :=
  {| RabbitMQProvider.connect :=
       fun _ => RabbitMQProvider.Rejected "ECONNREFUSED";
     RabbitMQProvider.createChannel :=
       fun _ => RabbitMQProvider.Rejected "closed";
     RabbitMQProvider.assertQueue :=
       fun _ _ => RabbitMQProvider.Rejected "closed" |}.

#[export] Instance idle_broker : RabbitMQ.Broker :=
  {| RabbitMQ.checkQueue := fun _ name =>
       Ok {| RabbitMQ.queue := name; RabbitMQ.messageCount := 0;
             RabbitMQ.consumerCount := 0 |} |}.

End OrdersInvariant.

Module InventoryMore.

Import InventoryService.

(** The item [create] stores for a request. *)
Definition created (dto : CreateInventoryDto.t) (db : Db Item.t) : Item.t :=
  {| Item.id := id_seq db;
     Item.name := CreateInventoryDto.name dto;
     Item.description := CreateInventoryDto.description dto;
     Item.metadata := default (JObject []) (CreateInventoryDto.metadata dto);
     Item.embedding := None;
     Item.created_at := clock db |}.






Definition stand : CreateInventoryDto.t :=
  {| CreateInventoryDto.name := "Laptop Stand";
     CreateInventoryDto.description := None;
     CreateInventoryDto.metadata := None |}.

End InventoryMore.

Module DriversMore.

Import DriversService.

(** The driver [create] stores for a request. *)
Definition created (dto : CreateDriverDto.t) (db : Db Driver.t) : Driver.t :=
  {| Driver.id := id_seq db;
     Driver.name := CreateDriverDto.name dto;
     Driver.location :=
       (fun l => MakePoint (LocationDto.lon l) (LocationDto.lat l))
         <$> CreateDriverDto.location dto;
     Driver.status := default "offline" (CreateDriverDto.status dto) |}.

(** What [update] leaves of a driver: each field of the request that is
    present, and the stored value of every other. *)
Definition patched (dto : UpdateDriverDto.t) (d : Driver.t) : Driver.t :=
  {| Driver.id := Driver.id d;
     Driver.name := default (Driver.name d) (UpdateDriverDto.name dto);
     Driver.location :=
       match UpdateDriverDto.location dto with
       | Some l => Some (MakePoint (LocationDto.lon l) (LocationDto.lat l))
       | None => Driver.location d
       end;
     Driver.status := default (Driver.status d) (UpdateDriverDto.status dto) |}.


Definition not_found : Exception := NotFoundException "Driver not found".

(** [PATCH /drivers/1] with body [{ "status": "busy" }]. *)
Definition now_busy : UpdateDriverDto.t :=
  {| UpdateDriverDto.name := None; UpdateDriverDto.location := None;
     UpdateDriverDto.status := Some "busy" |}.

Definition priya : CreateDriverDto.t :=
  {| CreateDriverDto.name := "Priya Nair";
     CreateDriverDto.location := None;
     CreateDriverDto.status := None |}.

End DriversMore.

Module TelemetryMore.

Import TelemetryService.


Definition not_found : Exception :=
  NotFoundException "No telemetry found for vehicle".


End TelemetryMore.
(* ================================================================== *)
(** * Properties                                                        *)
(* ================================================================== *)

(** Unfolding the monad down to the pairs it computes. *)
Ltac run_monad :=
  unfold select, issue, get_table, put_table, nextval, lift, bind, ret,
    throw in *;
  cbn [fst snd table id_seq clock issued] in *.

(** ** Orders *)

Section Orders.

Import OrdersService OrdersSpec.

Lemma insert_order_accepted dto db :
  accepted dto db ->
  insert_order (CreateOrderDto.customerId dto)
    (CreateOrderDto.driverId dto) (CreateOrderDto.inventoryId dto)
    (CreateOrderDto.quantity dto) pending
    (JSON_stringify (default (JObject []) (CreateOrderDto.metadata dto))) db
  = (Ok (inserted dto db), after_insert dto db).
Proof.
  intros [Hq Hfresh]. unfold insert_order. run_monad.
  rewrite Hq. cbn. rewrite Hfresh. reflexivity.
Qed.

Lemma update_order_queued dto db :
  quantity_ok (CreateOrderDto.quantity dto) = true ->
  update_order (id_seq db) (set_status queued) (after_insert dto db)
  = (Ok [enqueued dto db], after_update dto db).
Proof.
  intros Hq. unfold update_order, after_insert. run_monad.
  rewrite lookup_insert_eq. cbn. rewrite Hq. reflexivity.
Qed.

Lemma create_by_publish_outcome this dto db :
  accepted dto db ->
  create this dto db
  = if publishToQueue this (inserted dto db)
    then (Ok (Some (enqueued dto db)), after_update dto db)
    else (Ok (Some (inserted dto db)), after_insert dto db).
Proof.
  intros Hacc. pose proof Hacc as [Hq _].
  unfold create, bind at 1.
  rewrite (insert_order_accepted _ _ Hacc).
  destruct (publishToQueue this (inserted dto db)); [|reflexivity].
  change (id (inserted dto db)) with (id_seq db).
  unfold bind. rewrite (update_order_queued _ _ Hq). reflexivity.
Qed.

(** C1.  For an input the store accepts, [create] first inserts the
    row with status [pending].  When the channel is there and
    [sendToQueue] answers [true], a second statement marks the row
    [queued] and the updated row is returned.  When the channel is
    [null], or [sendToQueue] throws or answers [false], the row is
    returned as it was inserted, still [pending], and nothing is
    thrown. *)
Theorem create_insert_then_publish (this : OrdersService.t)
    (dto : CreateOrderDto.t) (db : Db Order) :
  accepted dto db ->
  match channel this with
  | Some ch =>
      match RabbitMQ.sendToQueue ch RabbitMQ.ORDERS_QUEUE
              (message this (inserted dto db)) with
      | RabbitMQ.Returned true =>
          create this dto db
          = (Ok (Some (enqueued dto db)), after_update dto db)
      | RabbitMQ.Returned false | RabbitMQ.Threw =>
          create this dto db
          = (Ok (Some (inserted dto db)), after_insert dto db)
      end
  | None =>
      create this dto db
      = (Ok (Some (inserted dto db)), after_insert dto db)
  end.
Proof.
  intros Hacc. rewrite (create_by_publish_outcome this dto db Hacc).
  unfold publishToQueue.
  destruct (channel this) as [ch|]; [|reflexivity].
  destruct (RabbitMQ.sendToQueue _ _ _) as [[|]|]; reflexivity.
Qed.

Lemma create_insert_then_publish_witness :
  accepted dto2 db0
  /\ create broker_up dto2 db0
     = (Ok (Some (enqueued dto2 db0)), after_update dto2 db0).
Proof.
  split.
  - split; reflexivity.
  - exact (create_insert_then_publish broker_up dto2 db0
             (conj eq_refl eq_refl)).
Defined.

(** With the broker down the same request is answered with the
    [pending] row. *)
Lemma create_broker_down :
  create broker_down dto2 db0 = (Ok (Some order1), db1).
Proof. reflexivity. Qed.

(** *** Validation of the request body *)

(** A quantity that is not positive never gets past the insert,
    whatever the pipes: no row is written. *)
Lemma insert_order_rejected c d i q s m (db : Db Order) :
  q <= 0 ->
  exists message db',
    insert_order c d i q s m db = (Throw (QueryFailedError message), db')
    /\ table db' = table db.
Proof.
  intros Hq. unfold insert_order. run_monad.
  assert (quantity_ok q = false) as ->.
  { unfold quantity_ok. apply andb_false_iff. left. apply Z.ltb_ge. exact Hq. }
  cbn. eauto.
Qed.

(** As [main.ts] starts the application, the request reaches the
    store and it is the store that refuses it: the caller sees a
    server error. *)
Lemma POST_orders_not_positive this dto db :
  CreateOrderDto.quantity dto <= 0 ->
  exists message db',
    Main.POST_orders Main.bootstrap this dto db
    = (Throw (QueryFailedError message), db')
    /\ http_status (QueryFailedError message) = 500
    /\ table db' = table db.
Proof.
  intros Hq. unfold Main.POST_orders, Main.bootstrap,
    OrdersController.create, create.
  cbn [globalPipes apply_pipes]. unfold lift, bind.
  destruct (insert_order_rejected (CreateOrderDto.customerId dto)
              (CreateOrderDto.driverId dto) (CreateOrderDto.inventoryId dto)
              (CreateOrderDto.quantity dto) pending
              (JSON_stringify (default (JObject []) (CreateOrderDto.metadata dto)))
              db Hq) as (message & db' & -> & Htbl).
  exists message, db'. auto.
Qed.

(** Had the validation pipe been registered, the decorators of the DTO
    would answer 400 before any statement. *)
Lemma POST_orders_validated this dto db :
  CreateOrderDto.quantity dto <= 0 ->
  exists messages,
    Main.POST_orders with_validation this dto db
    = (Throw (BadRequestException messages), db)
    /\ http_status (BadRequestException messages) = 400.
Proof.
  intros Hq. unfold Main.POST_orders, with_validation.
  cbn [globalPipes apply_pipes transform]. unfold lift, bind.
  assert (CreateOrderDto.validate dto <> []) as Hne.
  { unfold CreateOrderDto.validate, CreateOrderDto.isPositive at 1.
    apply Z.ltb_ge in Hq. rewrite Hq. intros E.
    repeat (apply app_eq_nil in E as [_ E]). discriminate. }
  destruct (CreateOrderDto.validate dto) as [|e es]; [congruence|].
  eauto.
Qed.

(** C2.  [POST /orders] with quantity 0, as the application is
    started: no pipe validates the body, the insert is refused by the
    [CHECK] of the column, and the caller is answered 500, not 400.
    No row is written. *)
Theorem POST_orders_quantity_zero :
  Main.POST_orders Main.bootstrap broker_up dto_zero db0
  = (Throw (QueryFailedError
              "violates check constraint orders_quantity_check"),
     {| table := ∅; id_seq := 2; clock := 1001; issued := [INSERT] |})
  /\ http_status (QueryFailedError
                    "violates check constraint orders_quantity_check") = 500
  /\ CreateOrderDto.validate dto_zero
     = ["quantity must be a positive number"].
Proof. repeat split; reflexivity. Qed.

(** *** Partial update *)

Context `{Casts}.

(** The statement [update] sends depends on which fields are present
    and on nothing else of the request. *)
Lemma update_ignores_values key (d1 d2 : UpdateOrderDto.t) (db : Db Order) :
  update_fields d1 = update_fields d2 ->
  update key d1 db = update key d2 db.
Proof. intros Heq. unfold update. rewrite Heq. reflexivity. Qed.

(** C3.  [PATCH /orders/1] with [{ "quantity": 7 }] on an order of
    quantity 2: the [SET] clause reads [$1], which is bound to the id,
    so the row is returned with quantity 1, not 7; a later read sees
    the same. *)
Theorem update_quantity_writes_the_id :
  let '(result, db') := update 1 quantity7 db1 in
  result = Ok (Some {| id := 1; customer_id := "customer-uuid-123";
                       driver_id := "driver-uuid-456";
                       inventory_id := "item-uuid-789";
                       quantity := 1; status := pending;
                       metadata := JObject [];
                       created_at := 1000; updated_at := 1002 |})
  /\ (quantity <$> table db' !! 1) = Some 1
  /\ update_values quantity7 = [SqlInt 7].
Proof. repeat split; reflexivity. Qed.

(** X8.  [update] of a stored order with two fields or more present:
    [$2] is not bound, the statement fails and the table is as it
    was. *)
Lemma update_two_fields_fails key (dto : UpdateOrderDto.t) (db : Db Order)
    row :
  table db !! key = Some row ->
  (2 <= length (update_fields dto))%nat ->
  exists message db',
    update key dto db = (Throw (QueryFailedError message), db')
    /\ table db' = table db.
Proof.
  intros Hrow Hlen. unfold update, findOne. run_monad.
  unfold where_id. rewrite Hrow. cbn.
  destruct (update_fields dto) as [|f1 [|f2 fs]] eqn:E; cbn in Hlen; try lia.
  cbn. unfold update_raw. cbn. run_monad. eauto.
Qed.

(** [findOne] on a stored row: one [SELECT], the row as it is. *)
Lemma findOne_stored key (db : Db Order) row :
  table db !! key = Some row ->
  findOne key db
  = (Ok row, {| table := table db; id_seq := id_seq db;
                clock := clock db + 1;
                issued := issued db ++ [SELECT] |}).
Proof.
  intros Hrow. unfold findOne. run_monad. unfold where_id.
  rewrite Hrow. reflexivity.
Qed.

Lemma orders_update_empty key (db : Db Order) row :
  table db !! key = Some row ->
  update key UpdateOrderDto.empty db
  = (Ok (Some row),
     {| table := table db; id_seq := id_seq db;
        clock := clock db + 1 + 1;
        issued := (issued db ++ [SELECT]) ++ [SELECT] |}).
Proof.
  intros Hrow. unfold update.
  change (update_fields UpdateOrderDto.empty) with (@nil string).
  unfold bind at 1. rewrite (findOne_stored _ _ _ Hrow).
  destruct (decide (length (@nil string) = 0%nat)) as [_|Hne];
    [|by destruct Hne].
  unfold bind. rewrite (findOne_stored key _ row) by exact Hrow.
  reflexivity.
Qed.

End Orders.

(** ** Rounding *)

Section Rounding.

Local Open Scope Q_scope.

Lemma round_half_even_comp (x y : Q) :
  x == y -> round_half_even x = round_half_even y.
Proof.
  intros Hxy. unfold round_half_even.
  rewrite (Qfloor_comp _ _ Hxy).
  assert (x - inject_Z (Qfloor y) == y - inject_Z (Qfloor y)) as Hr
    by (rewrite Hxy; reflexivity).
  rewrite (Qcompare_comp _ _ Hr (1 # 2) (1 # 2) (Qeq_refl _)).
  reflexivity.
Qed.

(** A distance within a whole number of metres stays within it when
    rounded. *)
Lemma round_half_even_le (x : Q) (n : Z) :
  x <= inject_Z n -> (round_half_even x <= n)%Z.
Proof.
  intros Hx. unfold round_half_even.
  pose proof (Qfloor_le x) as Hlo.
  assert (Qfloor x <= n)%Z as Hfn.
  { rewrite Zle_Qle. lra. }
  assert (~ (x - inject_Z (Qfloor x) < 1 # 2) -> (Qfloor x + 1 <= n)%Z)
    as Hup.
  { intros Hr. destruct (Z_lt_le_dec (Qfloor x) n) as [|Hge]; [lia|].
    exfalso. apply Hr. rewrite Zle_Qle in Hge. lra. }
  destruct (Qcompare_spec (x - inject_Z (Qfloor x)) (1 # 2)) as [He|Hl|Hg].
  - assert (Qfloor x + 1 <= n)%Z by (apply Hup; lra).
    destruct (Z.even (Qfloor x)); lia.
  - exact Hfn.
  - apply Hup. lra.
Qed.

End Rounding.

(** ** Drivers *)

Section Drivers.

Import DriversService DriversSpec.
Context `{Geography}.

Global Instance Z_asc_total {A} (key : A -> Z) : Total (Z_asc key).
Proof. intros x y. unfold Z_asc. lia. Qed.
Global Instance Z_asc_trans {A} (key : A -> Z) : Transitive (Z_asc key).
Proof. intros x y z. unfold Z_asc. lia. Qed.
Global Instance Z_desc_total {A} (key : A -> Z) : Total (Z_desc key).
Proof. intros x y. unfold Z_desc. lia. Qed.
Global Instance Z_desc_trans {A} (key : A -> Z) : Transitive (Z_desc key).
Proof. intros x y z. unfold Z_desc. lia. Qed.

(** The rows of a table that pass a filter are stored rows that pass
    it. *)
Lemma elem_of_filter_table {Row} (p : Row -> bool) (tbl : gmap Z Row) r :
  r ∈ List.filter p (map_to_list tbl).*2 <->
  (exists key, tbl !! key = Some r) /\ p r = true.
Proof.
  rewrite list_elem_of_In, filter_In, <- list_elem_of_In, list_elem_of_fmap.
  split.
  - intros [([key r'] & -> & Hin) Hp]. split; [|exact Hp].
    exists key. by apply elem_of_map_to_list.
  - intros [[key Hkey] Hp]. split; [|exact Hp].
    exists (key, r). split; [reflexivity|]. by apply elem_of_map_to_list.
Qed.

Lemma nearby_where_true lat lon radius status d :
  nearby_where lat lon radius status d = true <->
  exists location,
    Driver.location d = Some location
    /\ (ST_Distance location (geography lon lat) <= radius)%Q
    /\ (truthy_opt status = true -> status = Some (Driver.status d)).
Proof.
  unfold nearby_where, ST_DWithin.
  destruct (Driver.location d) as [location|].
  - rewrite andb_true_iff, Qle_bool_iff. split.
    + intros [Hd Hs]. exists location. repeat split; [exact Hd|].
      intros Ht. rewrite Ht in Hs. apply bool_decide_eq_true in Hs. by symmetry.
    + intros (l & [= <-] & Hd & Hs). split; [exact Hd|].
      destruct (truthy_opt status); [|reflexivity].
      apply bool_decide_eq_true. symmetry. by apply Hs.
  - split; [discriminate|]. intros (l & [=] & _).
Qed.

(** C6, amended.  Every row [findNearby] returns is a
    stored driver with a location; its distance from the point is
    within the radius (5000 m when none is given); [distance_m] is that
    distance rounded to the nearest metre, hence within the radius when
    the radius is a whole number of metres; a truthy status filter is
    met; and the rows come in ascending order of [distance_m].  The
    controller fills in the same default. *)
Theorem findNearby_within_radius_sorted (tbl : gmap Z Driver.t)
    (lat lon : Q) (radiusMetres : option Q) (status : option string) :
  let radius := default 5000%Q radiusMetres in
  let rows := findNearby tbl lat lon radiusMetres status in
  StronglySorted (Z_asc NearbyDriverRow.distance_m) rows
  /\ (forall row, row ∈ rows ->
        exists key d location,
          tbl !! key = Some d
          /\ Driver.location d = Some location
          /\ NearbyDriverRow.id row = Driver.id d
          /\ NearbyDriverRow.location row = ST_AsGeoJSON (Some location)
          /\ (ST_Distance location (geography lon lat) <= radius)%Q
          /\ NearbyDriverRow.distance_m row
             = round_half_even (ST_Distance location (geography lon lat))
          /\ (forall n : Z, (radius == inject_Z n)%Q ->
                NearbyDriverRow.distance_m row <= n)
          /\ (truthy_opt status = true -> status = Some (Driver.status d)))
  /\ findNearby tbl lat lon None status
     = findNearby tbl lat lon (Some 5000%Q) status
  /\ DriversController.findNearby tbl lat lon None status
     = findNearby tbl lat lon (Some 5000%Q) status.
Proof.
  intros radius rows. split; [|split; [|split; reflexivity]].
  - apply StronglySorted_merge_sort; apply _.
  - intros row Hrow. unfold rows, findNearby, order_by_asc_Z in Hrow.
    rewrite merge_sort_Permutation in Hrow.
    apply list_elem_of_omap in Hrow as (d & Hd & Hcols).
    apply elem_of_filter_table in Hd as [[key Hkey] Hwhere].
    apply nearby_where_true in Hwhere as (location & Hloc & Hdist & Hstatus).
    unfold nearby_columns in Hcols. rewrite Hloc in Hcols.
    injection Hcols as <-. exists key, d, location.
    cbn. repeat split; try assumption.
    intros n Hn. apply round_half_even_le. rewrite <- Hn. exact Hdist.
Qed.

(** X27.  Every stored driver that has a location within the radius
    (and the status asked for) is among the rows. *)
Lemma findNearby_complete (tbl : gmap Z Driver.t) lat lon radiusMetres
    status key d :
  tbl !! key = Some d ->
  nearby_where lat lon (default 5000%Q radiusMetres) status d = true ->
  exists row,
    row ∈ findNearby tbl lat lon radiusMetres status
    /\ nearby_columns lat lon d = Some row.
Proof.
  intros Hkey Hwhere.
  pose proof Hwhere as (location & Hloc & _)%nearby_where_true.
  destruct (nearby_columns lat lon d) as [row|] eqn:Hcols;
    [|unfold nearby_columns in Hcols; by rewrite Hloc in Hcols].
  exists row. split; [|reflexivity].
  unfold findNearby, order_by_asc_Z. rewrite merge_sort_Permutation.
  apply list_elem_of_omap. exists d. split; [|exact Hcols].
  apply elem_of_filter_table. eauto.
Qed.

(** C9.  For two stored drivers that both have a location, and a
    geodesic distance that is symmetric, [distanceBetween] answers in
    both directions, with the same [distance_m]. *)
Theorem distanceBetween_symmetric (tbl : gmap Z Driver.t)
    (a b : Z) (da db : Driver.t) (la lb : Point) :
  symmetric_distance ->
  tbl !! a = Some da -> tbl !! b = Some db ->
  Driver.location da = Some la -> Driver.location db = Some lb ->
  exists distance_m,
    distanceBetween tbl a b
    = Ok {| DriverDistance.driver_a := a; DriverDistance.driver_b := b;
            DriverDistance.distance_m := distance_m |}
    /\ distanceBetween tbl b a
       = Ok {| DriverDistance.driver_a := b; DriverDistance.driver_b := a;
               DriverDistance.distance_m := distance_m |}.
Proof.
  intros Hsym Ha Hb Hla Hlb.
  exists (round_half_even (ST_Distance la lb)).
  unfold distanceBetween, distance_rows, where_id.
  rewrite Ha, Hb. cbn. rewrite Hla, Hlb. cbn.
  split; [reflexivity|].
  rewrite (round_half_even_comp _ _ (Hsym lb la)). reflexivity.
Qed.

(** The same for a stored driver. *)
Lemma drivers_findOne_stored key (db : Db Driver.t) d :
  table db !! key = Some d ->
  findOne key db
  = (Ok (columns d),
     {| table := table db; id_seq := id_seq db; clock := clock db + 1;
        issued := issued db ++ [SELECT] |}).
Proof.
  intros Hrow. unfold findOne. run_monad. unfold where_id.
  rewrite Hrow. reflexivity.
Qed.

Lemma drivers_update_empty key (db : Db Driver.t) d :
  table db !! key = Some d ->
  update key UpdateDriverDto.empty db
  = (Ok (Some (columns d)),
     {| table := table db; id_seq := id_seq db;
        clock := clock db + 1 + 1;
        issued := (issued db ++ [SELECT]) ++ [SELECT] |}).
Proof.
  intros Hrow. unfold update.
  change (setParts UpdateDriverDto.empty) with (@nil SetPart).
  unfold bind at 1. rewrite (drivers_findOne_stored _ _ _ Hrow).
  destruct (decide (length (@nil SetPart) = 0%nat)) as [_|Hne];
    [|by destruct Hne].
  unfold bind. rewrite (drivers_findOne_stored key _ d) by exact Hrow.
  reflexivity.
Qed.

End Drivers.

Section DriversOnSample.

Import DriversService DriversSpec.

Lemma sample_geography_symmetric : symmetric_distance.
Proof.
  intros p q. cbn. unfold degrees_apart.
  rewrite (Qabs_Qminus (lat p) (lat q)), (Qabs_Qminus (lon p) (lon q)).
  reflexivity.
Qed.

Lemma distanceBetween_symmetric_witness :
  exists distance_m,
    distanceBetween drivers 1 2
    = Ok {| DriverDistance.driver_a := 1; DriverDistance.driver_b := 2;
            DriverDistance.distance_m := distance_m |}
    /\ distanceBetween drivers 2 1
       = Ok {| DriverDistance.driver_a := 2; DriverDistance.driver_b := 1;
               DriverDistance.distance_m := distance_m |}.
Proof.
  exact (distanceBetween_symmetric drivers 1 2 alice bob _ _
           sample_geography_symmetric eq_refl eq_refl eq_refl eq_refl).
Defined.

(** Counterexample to C6 as worded, for a radius that is not a whole
    number of metres: [GET /drivers/nearby?lat=37.7749&lon=-122.4194
    &radius_m=0.6] finds the driver who is 0.556 m away and reports
    [distance_m = 1], which is more than the radius. *)
Lemma findNearby_distance_m_exceeds_radius :
  NearbyDriverRow.distance_m
    <$> DriversController.findNearby drivers
          (377749 # 10000) (-1224194 # 10000) (Some (6 # 10)%Q) None
  = [1]
  /\ ~ (inject_Z 1 <= 6 # 10)%Q.
Proof.
  split.
  - vm_compute. reflexivity.
  - intros Hle. vm_compute in Hle. apply Hle. reflexivity.
Qed.

End DriversOnSample.

(** ** An update that names no field *)

Section EmptyUpdate.

Context `{Casts}.

(** C10.  For a stored order and a stored driver, [update] with a body
    in which every field is [undefined] returns the stored row as it
    is (for the order, [updated_at] included), leaves the table as it
    was, and issues two [SELECT]s and no [UPDATE]. *)
Theorem update_without_fields_is_identity
    (okey : Z) (odb : Db OrdersService.Order) (order : OrdersService.Order)
    (dkey : Z) (ddb : Db DriversService.Driver.t)
    (driver : DriversService.Driver.t) :
  table odb !! okey = Some order ->
  table ddb !! dkey = Some driver ->
  OrdersService.update okey UpdateOrderDto.empty odb
  = (Ok (Some order),
     {| table := table odb; id_seq := id_seq odb;
        clock := clock odb + 1 + 1;
        issued := (issued odb ++ [SELECT]) ++ [SELECT] |})
  /\ DriversService.update dkey UpdateDriverDto.empty ddb
     = (Ok (Some (DriversService.columns driver)),
        {| table := table ddb; id_seq := id_seq ddb;
           clock := clock ddb + 1 + 1;
           issued := (issued ddb ++ [SELECT]) ++ [SELECT] |}).
Proof.
  intros Horder Hdriver. split.
  - by apply orders_update_empty.
  - by apply drivers_update_empty.
Qed.

End EmptyUpdate.

(** No conversion of the server is involved when nothing is assigned:
    one that refuses every conversion will do. *)
Lemma update_without_fields_is_identity_witness :
  OrdersService.update (H := {| assign_cast := fun _ _ => None |})
    1 UpdateOrderDto.empty OrdersSpec.db1
  = (Ok (Some OrdersSpec.order1),
     {| table := table OrdersSpec.db1; id_seq := 2; clock := 1003;
        issued := [INSERT; SELECT; SELECT] |})
  /\ DriversService.update 1 UpdateDriverDto.empty DriversSpec.drivers_db
     = (Ok (Some (DriversService.columns DriversSpec.alice)),
        {| table := DriversSpec.drivers; id_seq := 4; clock := 1002;
           issued := [SELECT; SELECT] |}).
Proof.
  exact (update_without_fields_is_identity
           (H := {| assign_cast := fun _ _ => None |})
           1 OrdersSpec.db1 OrdersSpec.order1
           1 DriversSpec.drivers_db DriversSpec.alice eq_refl eq_refl).
Defined.

(** ** Inventory *)

Section Inventory.

Import InventoryService InventorySpec.
Context `{TextSearch} `{Vector}.

Global Instance Q_desc_total {A} (key : A -> Q) : Total (Q_desc key).
Proof.
  intros x y. unfold Q_desc. rewrite !Qle_bool_iff.
  destruct (Qlt_le_dec (key x) (key y)) as [Hlt|Hle]; [right|left].
  - by apply Qlt_le_weak.
  - exact Hle.
Qed.
Global Instance Q_desc_trans {A} (key : A -> Q) : Transitive (Q_desc key).
Proof.
  intros x y z. unfold Q_desc. rewrite !Qle_bool_iff.
  intros Hxy Hyz. by apply Qle_trans with (key y).
Qed.

(** C4.  Without an embedding, [hybridSearch] is [search]: the same
    rows in the same order, or the same failure. *)
Theorem hybridSearch_without_embedding (tbl : gmap Z Item.t)
    (query : string) (limit : Z) :
  hybridSearch tbl query None limit = search tbl query limit.
Proof. reflexivity. Qed.

(** *** The hybrid score *)







(** *** The empty query *)






(** *** Partial update of an item *)

Lemma foldl_assign_patched dto i :
  foldl assign i (updateData dto) = patched dto i.
Proof.
  unfold updateData, patched.
  destruct dto as [[n|] [d|] [m|]]; destruct i; reflexivity.
Qed.

(** X26.  Inventory.  When the request names a field, [update] writes
    the fields that are present and no other, and [findOne] reads the
    row back as [update] returned it. *)
Lemma inventory_update_partial key dto (db : Db Item.t) i :
  table db !! key = Some i ->
  updateData dto <> [] ->
  let db' := {| table := <[key := patched dto i]> (table db);
                id_seq := id_seq db; clock := clock db + 1;
                issued := issued db ++ [UPDATE] |} in
  update key dto db = (Ok (Some (columns (patched dto i))), db')
  /\ fst (findOne key db') = Ok (Some (columns (patched dto i))).
Proof.
  intros Hi Hne db'. split.
  - unfold update, db'. run_monad.
    rewrite <- (foldl_assign_patched dto i).
    destruct (updateData dto) as [|a l] eqn:E; [congruence|].
    rewrite Hi. reflexivity.
  - unfold findOne, db'. run_monad. unfold where_id.
    cbn [table]. rewrite lookup_insert_eq. reflexivity.
Qed.

End Inventory.

Section InventoryOnSample.

Import InventoryService InventorySpec.


(** The charger has an embedding a quarter away and no keyword match:
    0.6 x 0.75; the headphones match the keyword and have no
    embedding: 0.4 x 0.1. *)
Lemma hybridSearch_sample :
  (fun s => (Row.name (row s), Qred (score s)))
    <$> hybrid_rows inventory "headphones" [(1 # 4)%Q]
  = [("USB-C Charger", (9 # 20)%Q); ("Wireless Headphones", (1 # 25)%Q)].
Proof. vm_compute. reflexivity. Qed.



Lemma inventory_update_partial_sample :
  fst (update 1 new_description inventory_db)
  = Ok (Some {| Row.id := 1; Row.name := "Wireless Headphones";
                Row.description := Some "Over-ear";
                Row.metadata := JObject [("sku", "WH-1000")];
                Row.created_at := 1000 |}).
Proof. reflexivity. Qed.

End InventoryOnSample.

(** ** Telemetry *)

Section Telemetry.

Import TelemetryService TelemetrySpec.
Context `{Timescale} `{JsDate}.








End Telemetry.

Section TelemetryOnSample.

Import TelemetryService TelemetrySpec.


End TelemetryOnSample.

(* ================================================================== *)
(** * Further properties of the services                                *)
(* ================================================================== *)

(** ** Paging *)

Section Paging.

Context {A : Type}.

Lemma limit_offset_page (limit offset : Z) (rows : list A) :
  0 <= limit -> 0 <= offset ->
  limit_offset limit offset rows
  = Ok (take (Z.to_nat limit) (drop (Z.to_nat offset) rows)).
Proof.
  intros Hl Ho. unfold limit_offset, offset_rows, limit_rows.
  destruct (Z.ltb_spec offset 0); [lia|].
  destruct (Z.ltb_spec limit 0); [lia|]. reflexivity.
Qed.

Lemma limit_offset_negative (limit offset : Z) (rows : list A) :
  limit < 0 \/ offset < 0 ->
  exists message,
    limit_offset limit offset rows = Throw (QueryFailedError message).
Proof.
  intros Hneg. unfold limit_offset, offset_rows, limit_rows.
  destruct (Z.ltb_spec offset 0); [eauto|].
  destruct (Z.ltb_spec limit 0); [eauto|lia].
Qed.


End Paging.

(** ** Orders *)

Section OrdersMore.

Import OrdersService OrdersSpec StoreSpec OrdersInvariant.

Lemma orders_findOne_missing key (db : Db Order) :
  table db !! key = None ->
  findOne key db = (Throw not_found, after_select db).
Proof.
  intros Hrow. unfold findOne. run_monad. unfold where_id.
  rewrite Hrow. reflexivity.
Qed.

(** X1.  An order that was created can be read back: [findOne] with the
    id [create] returned answers the very row [create] returned, whether
    the broker took the message or not. *)
Theorem orders_create_then_findOne (this : OrdersService.t)
    (dto : CreateOrderDto.t) (db : Db Order) :
  accepted dto db ->
  exists order,
    fst (create this dto db) = Ok (Some order)
    /\ id order = id_seq db
    /\ fst (findOne (id order) (snd (create this dto db))) = Ok order.
Proof.
  intros Hacc. rewrite (create_by_publish_outcome this dto db Hacc).
  destruct (publishToQueue this (inserted dto db)).
  - exists (enqueued dto db). repeat split.
    cbn [fst snd]. rewrite (findOne_stored _ _ (enqueued dto db)); [done|].
    unfold after_update. cbn. apply lookup_insert_eq.
  - exists (inserted dto db). repeat split.
    cbn [fst snd]. rewrite (findOne_stored _ _ (inserted dto db)); [done|].
    unfold after_insert. cbn. apply lookup_insert_eq.
Qed.

Lemma orders_create_then_findOne_witness :
  exists order,
    fst (create broker_up dto2 db0) = Ok (Some order)
    /\ id order = 1
    /\ fst (findOne (id order) (snd (create broker_up dto2 db0))) = Ok order.
Proof.
  exact (orders_create_then_findOne broker_up dto2 db0 (conj eq_refl eq_refl)).
Defined.

Section WithCasts.

Context `{Casts}.


End WithCasts.


(** X3.  [updateStatus] on a stored order overwrites the status with
    the one asked for, whatever the one before, stamps [updated_at] with
    the time of the [UPDATE], leaves every other field and every other
    row as they were, and a later [findOne] reads the new row. *)
Theorem orders_updateStatus_stored (key : Z) (db : Db Order)
    (order : Order) (s : OrderStatus) :
  table db !! key = Some order ->
  quantity_ok (quantity order) = true ->
  let updated := with_status s (clock db + 1) order in
  let db' := {| table := <[key := updated]> (table db);
                id_seq := id_seq db; clock := clock db + 1 + 1;
                issued := (issued db ++ [SELECT]) ++ [UPDATE] |} in
  updateStatus key s db = (Ok (Some updated), db')
  /\ fst (findOne key db') = Ok updated
  /\ created_at updated = created_at order
  /\ updated_at updated = clock db + 1.
Proof.
  intros Hrow Hq updated db'. split; [|split; [|split; reflexivity]].
  - unfold updateStatus, bind at 1. rewrite (findOne_stored _ _ _ Hrow).
    unfold update_order. run_monad. rewrite Hrow. cbn. rewrite Hq.
    reflexivity.
  - rewrite (findOne_stored key db' updated); [done|].
    unfold db'. cbn. apply lookup_insert_eq.
Qed.

Lemma orders_updateStatus_stored_witness :
  fst (updateStatus 1 completed db1)
  = Ok (Some (with_status completed 1002 order1)).
Proof.
  exact (f_equal fst
           (proj1 (orders_updateStatus_stored 1 db1 order1 completed
                     eq_refl eq_refl))).
Defined.

(** X4.  [remove] on a stored order answers [{ deleted: true }] after a
    [SELECT] and a [DELETE]; the row is gone, the other rows stay, and a
    later [findOne] or a second [remove] throws [NotFoundException]. *)
Theorem orders_remove_stored (key : Z) (db : Db Order) (order : Order) :
  table db !! key = Some order ->
  let db' := {| table := delete key (table db);
                id_seq := id_seq db; clock := clock db + 1 + 1;
                issued := (issued db ++ [SELECT]) ++ [DELETE] |} in
  remove key db = (Ok {| deleted := true |}, db')
  /\ fst (findOne key db') = Throw not_found
  /\ fst (remove key db') = Throw not_found
  /\ (forall other, other <> key -> table db' !! other = table db !! other).
Proof.
  intros Hrow db'.
  assert (table db' !! key = None) as Hgone by apply lookup_delete_eq.
  split; [|split; [|split]].
  - unfold remove, bind at 1. rewrite (findOne_stored _ _ _ Hrow).
    unfold delete_where_id. run_monad. reflexivity.
  - by rewrite (orders_findOne_missing key db' Hgone).
  - unfold remove, bind at 1.
    by rewrite (orders_findOne_missing key db' Hgone).
  - intros other Hne. by apply lookup_delete_ne.
Qed.

Lemma orders_remove_stored_witness :
  remove 1 db1
  = (Ok {| deleted := true |},
     {| table := delete 1 (table db1); id_seq := 2; clock := 1003;
        issued := [INSERT; SELECT; DELETE] |}).
Proof. exact (proj1 (orders_remove_stored 1 db1 order1 eq_refl)). Defined.

End OrdersMore.

Section OrdersQueries.

Import OrdersService OrdersSpec StoreSpec OrdersInvariant.

(** X5.  [findAll] issues one [SELECT] and changes nothing.  With a
    truthy status it returns exactly the stored orders whose status has
    that text (none when the text is no status); with none, or the empty
    string, every stored order.  The rows come newest first. *)
Theorem orders_findAll_by_status (status : option string) (db : Db Order) :
  exists rows,
    findAll status db = (Ok rows, after_select db)
    /\ StronglySorted (Z_desc created_at) rows
    /\ (forall order,
          order ∈ rows <->
          (exists key, table db !! key = Some order)
          /\ (truthy_opt status = true ->
              status = Some (status_text (OrdersService.status order)))).
Proof.
  unfold findAll. destruct (truthy_opt status) eqn:Ht.
  - eexists. split; [reflexivity|]. split.
    + apply StronglySorted_merge_sort; apply _.
    + intros order. unfold order_by_desc_Z.
      rewrite merge_sort_Permutation, elem_of_filter_table.
      rewrite bool_decide_eq_true. intuition congruence.
  - eexists. split; [reflexivity|]. split.
    + apply StronglySorted_merge_sort; apply _.
    + intros order. unfold order_by_desc_Z.
      rewrite merge_sort_Permutation, list_elem_of_fmap. split.
      * intros ([key o] & -> & Hin). split; [|discriminate].
        exists key. by apply elem_of_map_to_list.
      * intros [[key Hkey] _]. exists (key, order).
        split; [reflexivity|]. by apply elem_of_map_to_list.
Qed.

(** *** The invariant of the table *)

Lemma keeps_wf_bind {A B} (c : M (Db Order) A) (k : A -> M (Db Order) B) :
  keeps_wf c -> (forall a, keeps_wf (k a)) -> keeps_wf (bind c k).
Proof.
  intros Hc Hk db Hwf. unfold bind. specialize (Hc db Hwf).
  destruct (c db) as [[a|e] db']; cbn in *; [by apply Hk|exact Hc].
Qed.

Lemma keeps_wf_ret {A} (a : A) : keeps_wf (ret a).
Proof. intros db Hwf. exact Hwf. Qed.

Lemma keeps_wf_throw {A} e : keeps_wf (throw (A := A) e).
Proof. intros db Hwf. exact Hwf. Qed.

Lemma keeps_wf_issue s : keeps_wf (issue s).
Proof. intros db Hwf. exact Hwf. Qed.

Lemma keeps_wf_select {A} (q : gmap Z Order -> Result A) :
  keeps_wf (select q).
Proof. intros db Hwf. exact Hwf. Qed.

Lemma keeps_wf_findOne key : keeps_wf (findOne key).
Proof.
  unfold findOne. apply keeps_wf_bind; [apply keeps_wf_select|].
  intros rows. destruct (head rows);
    [apply keeps_wf_ret|apply keeps_wf_throw].
Qed.

Lemma keeps_wf_insert_order c d i q s m : keeps_wf (insert_order c d i q s m).
Proof.
  intros db Hwf. unfold insert_order. run_monad.
  assert (orders_wf {| table := table db; id_seq := id_seq db + 1;
                       clock := clock db + 1;
                       issued := issued db ++ [INSERT] |}) as Hskip.
  { intros key order Hrow. cbn in *.
    destruct (Hwf key order Hrow) as (? & ? & ?). repeat split; [done|lia|done]. }
  destruct (quantity_ok q) eqn:Hq; cbn; [|exact Hskip].
  destruct (table db !! id_seq db) eqn:Hfree; cbn; [exact Hskip|].
  intros key order. cbn. rewrite lookup_insert.
  case_decide as Hkey.
  - intros [= <-]. cbn. repeat split; [done|lia|done].
  - intros Hrow. destruct (Hwf key order Hrow) as (? & ? & ?).
    repeat split; [done|lia|done].
Qed.

Lemma keeps_wf_update_order key (set : Z -> Order -> Result Order) :
  (forall now old new, set now old = Ok new -> id new = id old) ->
  keeps_wf (update_order key set).
Proof.
  intros Hid db Hwf. unfold update_order. run_monad.
  assert (orders_wf {| table := table db; id_seq := id_seq db;
                       clock := clock db + 1;
                       issued := issued db ++ [UPDATE] |}) as Hskip
    by exact Hwf.
  destruct (table db !! key) as [old|] eqn:Hold; cbn; [|exact Hskip].
  destruct (set (clock db) old) as [new|e] eqn:Hset; cbn; [|exact Hskip].
  destruct (quantity_ok (quantity new)) eqn:Hq; cbn; [|exact Hskip].
  intros key' order. cbn. rewrite lookup_insert.
  destruct (Hwf key old Hold) as (Hkey & Hseq & _).
  case_decide as Hk.
  - intros [= <-]. cbn. rewrite (Hid _ _ _ Hset). subst key'.
    repeat split; assumption.
  - intros Hrow. exact (Hwf key' order Hrow).
Qed.

Lemma keeps_wf_delete key : keeps_wf (delete_where_id key).
Proof.
  intros db Hwf key' order. unfold delete_where_id. run_monad. cbn.
  intros Hrow. apply lookup_delete_Some in Hrow as [_ Hrow].
  exact (Hwf key' order Hrow).
Qed.

Lemma set_status_keeps_id s now old new :
  set_status s now old = Ok new -> id new = id old.
Proof. intros [= <-]. reflexivity. Qed.

Lemma assign_keeps_id `{Casts} (bound : list (string * SqlValue)) r old new :
  (forall o, r = Ok o -> id o = id old) ->
  foldl assign r bound = Ok new -> id new = id old.
Proof.
  revert r. induction bound as [|clause bound IH]; intros r Hr; cbn.
  - intros ->. by apply Hr.
  - apply IH. intros o. unfold assign. destruct r as [o'|e]; [|discriminate].
    specialize (Hr o' eq_refl). unfold rejected.
    repeat (destruct (String.eqb _ _); [
      first [ destruct (as_text _) | destruct (as_integer _)
            | destruct (as_jsonb _) ];
      [intros [= <-]; exact Hr | discriminate] | ]).
    discriminate.
Qed.

Lemma keeps_wf_update_raw `{Casts} clauses params :
  keeps_wf (update_raw clauses params).
Proof.
  unfold update_raw.
  assert (forall A e, keeps_wf (bind (issue UPDATE) (fun _ => throw (A := A) e)))
    as Hfail.
  { intros A e. apply keeps_wf_bind; [apply keeps_wf_issue|].
    intros _. apply keeps_wf_throw. }
  destruct (bind_clauses params clauses) as [bound|e];
    destruct (param params 1) as [[key| |]|e']; try apply Hfail.
  apply keeps_wf_update_order. intros now old new.
  destruct (foldl assign (Ok old) bound) as [new'|] eqn:Hfold; [|discriminate].
  intros [= <-]. cbn.
  apply (assign_keeps_id bound (Ok old) old new' ltac:(by intros o [= ->]) Hfold).
Qed.

(** X6.  Every method of the orders service keeps the table sound: each
    row stays under its own id, the sequence stays ahead of every stored
    key and every stored quantity passes the check of the column,
    whether the call succeeds or throws. *)
Theorem orders_service_keeps_wf `{Casts} (this : OrdersService.t)
    (db : Db Order) (create_dto : CreateOrderDto.t) (key : Z)
    (update_dto : UpdateOrderDto.t) (s : OrderStatus)
    (status : option string) :
  orders_wf db ->
  orders_wf (snd (create this create_dto db))
  /\ orders_wf (snd (findOne key db))
  /\ orders_wf (snd (findAll status db))
  /\ orders_wf (snd (update key update_dto db))
  /\ orders_wf (snd (updateStatus key s db))
  /\ orders_wf (snd (remove key db)).
Proof.
  intros Hwf. split; [|split; [|split; [|split; [|split]]]].
  - revert db Hwf. unfold create. apply keeps_wf_bind.
    + apply keeps_wf_insert_order.
    + intros order. destruct (publishToQueue this order).
      * apply keeps_wf_bind;
          [apply keeps_wf_update_order, set_status_keeps_id|].
        intros rows. apply keeps_wf_ret.
      * apply keeps_wf_ret.
  - by apply keeps_wf_findOne.
  - revert db Hwf. unfold findAll.
    destruct (truthy_opt status); apply keeps_wf_select.
  - revert db Hwf. unfold update.
    apply keeps_wf_bind; [apply keeps_wf_findOne|]. intros _.
    destruct (decide _).
    + apply keeps_wf_bind; [apply keeps_wf_findOne|].
      intros order. apply keeps_wf_ret.
    + apply keeps_wf_bind; [apply keeps_wf_update_raw|].
      intros rows. apply keeps_wf_ret.
  - revert db Hwf. unfold updateStatus.
    apply keeps_wf_bind; [apply keeps_wf_findOne|]. intros _.
    apply keeps_wf_bind;
      [apply keeps_wf_update_order, set_status_keeps_id|].
    intros rows. apply keeps_wf_ret.
  - revert db Hwf. unfold remove.
    apply keeps_wf_bind; [apply keeps_wf_findOne|]. intros _.
    apply keeps_wf_bind; [apply keeps_wf_delete|].
    intros rows. apply keeps_wf_ret.
Qed.

Lemma orders_wf_empty : orders_wf db0.
Proof. intros key order Hrow. cbn in Hrow. by rewrite lookup_empty in Hrow. Qed.

Lemma orders_service_keeps_wf_witness :
  orders_wf (snd (create broker_up dto2 db0))
  /\ orders_wf (snd (remove 1 db0)).
Proof.
  destruct (orders_service_keeps_wf
              (H := {| assign_cast := fun _ _ => None |})
              broker_up db0 dto2 1 quantity7 completed None orders_wf_empty)
    as (Hc & _ & _ & _ & _ & Hr).
  split; assumption.
Defined.

(** On a sound table the only thing [create] asks of the request is a
    quantity the column takes. *)
Lemma orders_wf_accepted dto (db : Db Order) :
  orders_wf db ->
  quantity_ok (CreateOrderDto.quantity dto) = true ->
  accepted dto db.
Proof.
  intros Hwf Hq. split; [exact Hq|].
  destruct (table db !! id_seq db) as [order|] eqn:Hrow; [|reflexivity].
  destruct (Hwf _ _ Hrow) as (_ & Hlt & _). lia.
Qed.

(** X7.  When the broker cannot be reached at start-up the factory
    answers [null], and a service built on that channel still creates
    orders: on a sound table a request with a quantity the column takes
    is stored and returned with status [pending], no error is thrown,
    and [queueStats] answers [null]. *)
Theorem broker_unreachable_degrades `{RabbitMQ.Broker} {Connection}
    (amqplib : RabbitMQProvider.Amqplib Connection) (url message : string)
    (now : Z) (dto : CreateOrderDto.t) (db : Db Order) :
  RabbitMQProvider.connect amqplib url = RabbitMQProvider.Rejected message ->
  orders_wf db ->
  quantity_ok (CreateOrderDto.quantity dto) = true ->
  let this := {| channel := RabbitMQProvider.useFactory amqplib url;
                 Date_now := now |} in
  create this dto db = (Ok (Some (inserted dto db)), after_insert dto db)
  /\ status (inserted dto db) = pending
  /\ queueStats this = Ok None.
Proof.
  intros Hconnect Hwf Hq this.
  assert (channel this = None) as Hnull.
  { unfold this. cbn. unfold RabbitMQProvider.useFactory.
    by rewrite Hconnect. }
  split; [|split; [reflexivity|]].
  - rewrite (create_by_publish_outcome this dto db
               (orders_wf_accepted dto db Hwf Hq)).
    unfold publishToQueue. by rewrite Hnull.
  - unfold queueStats. by rewrite Hnull.
Qed.

Lemma broker_unreachable_degrades_witness :
  create {| channel := RabbitMQProvider.useFactory unreachable "amqp://localhost";
            Date_now := 1000 |} dto2 db0
  = (Ok (Some order1), db1).
Proof.
  exact (proj1 (broker_unreachable_degrades unreachable "amqp://localhost"
                  "ECONNREFUSED" 1000 dto2 db0 eq_refl orders_wf_empty
                  eq_refl)).
Defined.

Lemma update_two_fields_fails_witness :
  exists message db',
    update (H := {| assign_cast := fun _ _ => None |}) 1 two_fields db1
    = (Throw (QueryFailedError message), db')
    /\ table db' = table db1.
Proof.
  exact (update_two_fields_fails
           (H := {| assign_cast := fun _ _ => None |})
           1 two_fields db1 order1 eq_refl ltac:(cbn; lia)).
Defined.

End OrdersQueries.

(** ** Tables ranked above a threshold *)

Section Ranked.

Context {Row Out : Type}.



End Ranked.

(** ** Inventory *)

Section InventoryMore.

Import InventoryService InventorySpec StoreSpec InventoryMore.

(** X9.  An item that was created can be read back: [create] stores the
    name, the description or [null], the metadata or the empty object,
    no embedding, under the next key of the sequence; [findOne] with
    that key answers the row [create] returned, and the rows that were
    there are untouched. *)
Theorem inventory_create_then_findOne (dto : CreateInventoryDto.t)
    (db : Db Item.t) :
  table db !! id_seq db = None ->
  let db' := {| table := <[id_seq db := created dto db]> (table db);
                id_seq := id_seq db + 1; clock := clock db + 1;
                issued := issued db ++ [INSERT] |} in
  create dto db = (Ok (columns (created dto db)), db')
  /\ fst (findOne (id_seq db) db') = Ok (Some (columns (created dto db)))
  /\ (forall other, other <> id_seq db ->
        table db' !! other = table db !! other).
Proof.
  intros Hfree db'. split; [|split].
  - unfold create, db'. run_monad. rewrite Hfree. unfold created.
    destruct (CreateInventoryDto.metadata dto); reflexivity.
  - unfold findOne, db'. run_monad. unfold where_id. cbn [table].
    by rewrite lookup_insert_eq.
  - intros other Hne. unfold db'. cbn. by apply lookup_insert_ne.
Qed.

Lemma inventory_create_then_findOne_witness :
  fst (create stand inventory_db)
  = Ok {| Row.id := 3; Row.name := "Laptop Stand";
          Row.description := None; Row.metadata := JObject [];
          Row.created_at := 1002 |}.
Proof.
  exact (f_equal fst
           (proj1 (inventory_create_then_findOne stand inventory_db eq_refl))).
Defined.

(** X10.  [findAll] issues one [SELECT] and changes nothing.  With a
    limit and an offset that are not negative (20 and 0 when left out)
    it answers the rows from [offset] on, [limit] of them at most, of the
    whole table ordered newest first; a negative limit or offset makes
    the statement fail. *)
Theorem inventory_findAll_page (limit offset : option Z) (db : Db Item.t) :
  let l := default 20 limit in
  let o := default 0 offset in
  (0 <= l -> 0 <= o ->
     exists ordered,
       findAll limit offset db
       = (Ok (take (Z.to_nat l) (drop (Z.to_nat o) ordered)),
          after_select db)
       /\ ordered ≡ₚ columns <$> (map_to_list (table db)).*2
       /\ StronglySorted (Z_desc Row.created_at) ordered)
  /\ (l < 0 \/ o < 0 ->
        exists message,
          findAll limit offset db
          = (Throw (QueryFailedError message), after_select db)).
Proof.
  intros l o. split.
  - intros Hl Ho. eexists. split; [|split].
    + unfold findAll. run_monad. fold l o.
      rewrite limit_offset_page by assumption. reflexivity.
    + apply merge_sort_Permutation.
    + apply StronglySorted_merge_sort; apply _.
  - intros Hneg. unfold findAll. run_monad. fold l o.
    destruct (limit_offset_negative l o
                (order_by_desc_Z Row.created_at
                   (columns <$> (map_to_list (table db)).*2)) Hneg)
      as [message ->].
    by exists message.
Qed.




Lemma inventory_update_partial_witness :
  fst (update 1 new_description inventory_db)
  = Ok (Some (columns (patched new_description headphones))).
Proof.
  exact (f_equal fst
           (proj1 (inventory_update_partial 1 new_description inventory_db
                     headphones eq_refl ltac:(discriminate)))).
Defined.



End InventoryMore.

(** ** Patterns *)

Section Patterns.

Import Like InventoryService InventoryMore.









Context `{TextSearch}.




End Patterns.

Section PatternsOnSample.

Import InventoryService InventorySpec InventoryMore.



End PatternsOnSample.

(** ** Drivers *)

Section DriversMore.

Import DriversService DriversSpec StoreSpec DriversMore.

Lemma drivers_findOne_missing key (db : Db Driver.t) :
  table db !! key = None ->
  findOne key db = (Throw not_found, after_select db).
Proof.
  intros Hrow. unfold findOne. run_monad. unfold where_id.
  rewrite Hrow. reflexivity.
Qed.

(** X16.  A driver that was created can be read back: [create] stores
    the name, the point of the location or [NULL], the status or
    ['offline'], under the next key of the sequence; [findOne] with that
    key answers the row [create] returned, and the rows that were there
    are untouched. *)
Theorem drivers_create_then_findOne (dto : CreateDriverDto.t)
    (db : Db Driver.t) :
  table db !! id_seq db = None ->
  let db' := {| table := <[id_seq db := created dto db]> (table db);
                id_seq := id_seq db + 1; clock := clock db + 1;
                issued := issued db ++ [INSERT] |} in
  create dto db = (Ok (columns (created dto db)), db')
  /\ fst (findOne (id_seq db) db') = Ok (columns (created dto db))
  /\ (forall other, other <> id_seq db ->
        table db' !! other = table db !! other).
Proof.
  intros Hfree db'. split; [|split].
  - unfold create, db'. run_monad. rewrite Hfree. unfold created.
    destruct (CreateDriverDto.location dto); reflexivity.
  - rewrite (drivers_findOne_stored (id_seq db) db' (created dto db));
      [done|].
    unfold db'. cbn. apply lookup_insert_eq.
  - intros other Hne. unfold db'. cbn. by apply lookup_insert_ne.
Qed.

Lemma drivers_create_then_findOne_witness :
  fst (create priya drivers_db)
  = Ok {| DriverRow.id := 4; DriverRow.name := "Priya Nair";
          DriverRow.status := "offline"; DriverRow.location := None |}.
Proof.
  exact (f_equal fst
           (proj1 (drivers_create_then_findOne priya drivers_db eq_refl))).
Defined.

Lemma foldl_assign_setParts dto d :
  foldl assign d (setParts dto) = patched dto d.
Proof.
  unfold setParts, patched.
  destruct dto as [[n|] [l|] [s|]]; destruct d; reflexivity.
Qed.

(** X17.  [update] of a stored driver with at least one field present
    writes the fields that are present and no other (the location as the
    point of the given longitude and latitude), after one [SELECT] and
    with one [UPDATE], and [findOne] reads the row back as [update]
    returned it. *)
Theorem drivers_update_partial (key : Z) (dto : UpdateDriverDto.t)
    (db : Db Driver.t) (d : Driver.t) :
  table db !! key = Some d ->
  setParts dto <> [] ->
  let db' := {| table := <[key := patched dto d]> (table db);
                id_seq := id_seq db; clock := clock db + 1 + 1;
                issued := (issued db ++ [SELECT]) ++ [UPDATE] |} in
  update key dto db = (Ok (Some (columns (patched dto d))), db')
  /\ fst (findOne key db') = Ok (columns (patched dto d)).
Proof.
  intros Hrow Hparts db'. split.
  - unfold update, bind at 1. rewrite (drivers_findOne_stored _ _ _ Hrow).
    destruct (decide (length (setParts dto) = 0%nat)) as [Hlen|_].
    { by destruct (setParts dto). }
    unfold db'. run_monad. rewrite Hrow, foldl_assign_setParts.
    reflexivity.
  - rewrite (drivers_findOne_stored key db' (patched dto d)); [done|].
    unfold db'. cbn. apply lookup_insert_eq.
Qed.

Lemma drivers_update_partial_witness :
  fst (update 1 now_busy drivers_db)
  = Ok (Some (columns (patched now_busy alice))).
Proof.
  exact (f_equal fst
           (proj1 (drivers_update_partial 1 now_busy drivers_db alice
                     eq_refl ltac:(discriminate)))).
Defined.


(** X19.  [remove] on a stored driver answers the message and the id
    after a [SELECT] and a [DELETE]; the row is gone, the other rows
    stay, and a later [findOne] or [update] throws [NotFoundException].
    On a key that is not stored [remove] throws and issues no
    [DELETE]. *)
Theorem drivers_remove_stored (key : Z) (db : Db Driver.t) (d : Driver.t)
    (dto : UpdateDriverDto.t) :
  table db !! key = Some d ->
  let db' := {| table := delete key (table db);
                id_seq := id_seq db; clock := clock db + 1 + 1;
                issued := (issued db ++ [SELECT]) ++ [DELETE] |} in
  remove key db
  = (Ok {| message := ("Driver #" ++ pretty key ++ " deleted")%string;
           id := key |}, db')
  /\ findOne key db' = (Throw not_found, after_select db')
  /\ update key dto db' = (Throw not_found, after_select db')
  /\ remove key db' = (Throw not_found, after_select db')
  /\ (forall other, other <> key -> table db' !! other = table db !! other).
Proof.
  intros Hrow db'.
  assert (table db' !! key = None) as Hgone by apply lookup_delete_eq.
  pose proof (drivers_findOne_missing key db' Hgone) as Hf.
  split; [|split; [|split; [|split]]].
  - unfold remove, bind at 1. rewrite (drivers_findOne_stored _ _ _ Hrow).
    unfold delete_where_id. run_monad. reflexivity.
  - exact Hf.
  - unfold update, bind at 1. by rewrite Hf.
  - unfold remove, bind at 1. by rewrite Hf.
  - intros other Hne. by apply lookup_delete_ne.
Qed.

Lemma drivers_remove_stored_witness :
  fst (remove 2 drivers_db)
  = Ok {| message := "Driver #2 deleted"; id := 2 |}.
Proof.
  exact (f_equal fst
           (proj1 (drivers_remove_stored 2 drivers_db bob now_busy eq_refl))).
Defined.

Section WithGeography.

Context `{Geography}.


End WithGeography.

Lemma findNearby_complete_witness :
  exists row,
    row ∈ findNearby drivers (377749 # 10000) (-1224194 # 10000)
            (Some (6 # 10)%Q) (Some "online")
    /\ nearby_columns (377749 # 10000) (-1224194 # 10000) alice = Some row.
Proof.
  exact (findNearby_complete drivers (377749 # 10000) (-1224194 # 10000)
           (Some (6 # 10)%Q) (Some "online") 1 alice eq_refl eq_refl).
Defined.

(** X21.  [findAll] issues one [SELECT] and changes nothing.  With a
    limit and an offset that are not negative (50 and 0 when left out)
    it answers the rows from [offset] on, [limit] of them at most, of the
    list, ordered by descending id, of exactly the stored drivers with
    the status asked for (all of them when the status is left out or
    empty); a negative limit or offset makes the statement fail. *)
Theorem drivers_findAll_page (status : option string)
    (limit offset : option Z) (db : Db Driver.t) :
  let l := default 50 limit in
  let o := default 0 offset in
  (0 <= l -> 0 <= o ->
     exists ordered,
       findAll status limit offset db
       = (Ok (take (Z.to_nat l) (drop (Z.to_nat o) ordered)),
          after_select db)
       /\ StronglySorted (Z_desc DriverRow.id) ordered
       /\ (forall row,
             row ∈ ordered <->
             exists key d,
               table db !! key = Some d
               /\ (truthy_opt status = true ->
                   status = Some (Driver.status d))
               /\ row = columns d))
  /\ (l < 0 \/ o < 0 ->
        exists message,
          findAll status limit offset db
          = (Throw (QueryFailedError message), after_select db)).
Proof.
  intros l o. split.
  - intros Hl Ho. eexists. split; [|split].
    + unfold findAll. run_monad. fold l o.
      rewrite limit_offset_page by assumption. reflexivity.
    + apply StronglySorted_merge_sort; apply _.
    + intros row. unfold order_by_desc_Z.
      rewrite merge_sort_Permutation, list_elem_of_fmap. split.
      * intros (d & -> & Hin).
        apply elem_of_filter_table in Hin as [[key Hkey] Hp].
        exists key, d. split; [exact Hkey|]. split; [|reflexivity].
        intros Ht. rewrite Ht in Hp. apply bool_decide_eq_true in Hp.
        by symmetry.
      * intros (key & d & Hkey & Hs & ->). exists d.
        split; [reflexivity|]. apply elem_of_filter_table.
        split; [eauto|]. destruct (truthy_opt status); [|reflexivity].
        apply bool_decide_eq_true. symmetry. by apply Hs.
  - intros Hneg. unfold findAll. run_monad. fold l o.
    match goal with
    | |- context [limit_offset l o ?rows] =>
        destruct (limit_offset_negative l o rows Hneg) as [message ->]
    end.
    by exists message.
Qed.



End DriversMore.

(** ** Telemetry *)

Section TelemetryMore.

Import TelemetryService TelemetrySpec TelemetryMore.


Section Buckets.

Context `{Timescale}.




Context `{JsDate}.


End Buckets.

Lemma head_of_descending {A} (key : A -> Z) (l : list A) (x : A) :
  StronglySorted (Z_desc key) l -> head l = Some x ->
  forall y, y ∈ l -> key y <= key x.
Proof.
  intros Hsorted Hhead y Hy. destruct l as [|x' l]; [discriminate|].
  injection Hhead as ->. apply StronglySorted_cons in Hsorted as [Hx _].
  apply elem_of_cons in Hy as [->|Hy]; [lia|].
  rewrite Forall_forall in Hx. exact (Hx y Hy).
Qed.

(** X24.  [findLatest] answers a reading of the vehicle that no other
    reading of the vehicle is later than; it throws [NotFoundException]
    exactly when the table has no reading of the vehicle. *)
Theorem findLatest_is_latest (tbl : list Reading.t) (vehicle_id : string) :
  match findLatest tbl vehicle_id with
  | Ok row =>
      exists r,
        r ∈ tbl /\ Reading.vehicle_id r = vehicle_id /\ row = columns r
        /\ (forall r', r' ∈ tbl -> Reading.vehicle_id r' = vehicle_id ->
              Reading.time r' <= Reading.time r)
  | Throw e =>
      e = not_found
      /\ (forall r, r ∈ tbl -> Reading.vehicle_id r <> vehicle_id)
  end.
Proof.
  unfold findLatest.
  set (mine := List.filter
                 (fun r => bool_decide (Reading.vehicle_id r = vehicle_id))
                 tbl).
  assert (forall r, r ∈ mine <-> r ∈ tbl /\ Reading.vehicle_id r = vehicle_id)
    as Hmine.
  { intros r. unfold mine.
    by rewrite list_elem_of_In, filter_In, bool_decide_eq_true,
      <- list_elem_of_In. }
  set (sorted := order_by_desc_Z Row.time (columns <$> mine)).
  assert (forall row, row ∈ sorted <-> exists r, r ∈ mine /\ row = columns r)
    as Hsorted_in.
  { intros row. unfold sorted, order_by_desc_Z.
    rewrite merge_sort_Permutation, list_elem_of_fmap.
    split; intros (r & H1 & H2); exists r; split; assumption. }
  destruct (head sorted) as [row|] eqn:Hhead.
  - assert (row ∈ sorted) as Hin.
    { destruct sorted; [discriminate|]. injection Hhead as ->. by left. }
    apply Hsorted_in in Hin as (r & Hr & ->).
    apply Hmine in Hr as [Hr Hv]. exists r. repeat split; try assumption.
    intros r' Hr' Hv'.
    apply (head_of_descending Row.time sorted (columns r)
             ltac:(apply StronglySorted_merge_sort; apply _) Hhead
             (columns r')).
    apply Hsorted_in. exists r'. split; [|reflexivity]. by apply Hmine.
  - split; [reflexivity|]. intros r Hr Hv.
    assert (columns r ∈ sorted) as Hin.
    { apply Hsorted_in. exists r. split; [|reflexivity]. by apply Hmine. }
    destruct sorted; [by apply elem_of_nil in Hin|discriminate].
Qed.


End TelemetryMore.

Section TelemetryMoreOnSample.

Import TelemetryService TelemetrySpec TelemetryMore.


End TelemetryMoreOnSample.
